(** * concat.js: file selection and report assembly

    A shallow embedding of [src/concat.js], the script that walks a project
    tree, renders every included file into a text block, collects runtime,
    build, lint and type-check diagnostics and assembles one markdown report.

    JavaScript strings are sequences of UTF-16 code units; they are modelled
    as [list N], one number per code unit.  Arrays of strings are lists.
    Calls into Node ([path], [JSON]) are the methods of the class
    [NodeRuntime]; what the outside world answers during one run (browser,
    subprocesses, file system) is the record [Env]. *)

From stdpp Require Import base decidable option numbers list strings pretty.

Set Warnings "-register-all".

Open Scope N_scope.
Open Scope nat_scope.

(** ** JavaScript strings *)

Abbreviation jsstring := (list N).

(** A string literal of the source, as code units. *)
Definition js (s : string) : jsstring :=
  Ascii.N_of_ascii <$> String.list_ascii_of_string s.

(** The one-unit string "\n". *)
Definition LF : N := 10%N.
Definition nl : jsstring := [LF].

(** [s.startsWith(p)]: the [length p] units of [s] from position 0 are [p]. *)
Definition startsWith (s p : jsstring) : bool :=
  if decide (length p <= length s)
  then bool_decide (take (length p) s = p)
  else false.

(** [s.endsWith(p)]: the last [length p] units of [s] are [p]. *)
Definition endsWith (s p : jsstring) : bool :=
  if decide (length p <= length s)
  then bool_decide (drop (length s - length p) s = p)
  else false.

(** [s.includes(p)]: [p] occurs in [s] at some position, searched from 0. *)
Fixpoint includes (s p : jsstring) : bool :=
  startsWith s p ||
  match s with
  | [] => false
  | _ :: t => includes t p
  end.

(** [s.substring(k)] for a start index inside or past the string. *)
Definition substring (k : nat) (s : jsstring) : jsstring := drop k s.

(** [s.split(sep)] for a separator of one code unit (every call site of the
    source splits on "\n").  The result is never empty: [split] of the empty
    string is the one-element array holding the empty string. *)
Fixpoint split (sep : N) (s : jsstring) : list jsstring :=
  match s with
  | [] => [[]]
  | c :: t =>
      if decide (c = sep) then [] :: split sep t
      else match split sep t with
           | [] => [[c]]
           | seg :: segs => (c :: seg) :: segs
           end
  end.

(** [a.join(sep)] on an array of strings. *)
Fixpoint join (sep : jsstring) (a : list jsstring) : jsstring :=
  match a with
  | [] => []
  | [x] => x
  | x :: t => x ++ sep ++ join sep t
  end.

(** Code units that [trim] strips: ECMAScript WhiteSpace and LineTerminator
    (TAB, LF, VT, FF, CR, SP, NBSP, U+1680, U+2000..U+200A, U+2028, U+2029,
    U+202F, U+205F, U+3000, U+FEFF). *)
Definition isWhiteSpace (c : N) : bool :=
  ((9 <=? c) && (c <=? 13) || (c =? 32) || (c =? 160) || (c =? 5760)
   || (8192 <=? c) && (c <=? 8202) || (c =? 8232) || (c =? 8233)
   || (c =? 8239) || (c =? 8287) || (c =? 12288) || (c =? 65279))%N.

Fixpoint trimStart (s : jsstring) : jsstring :=
  match s with
  | [] => []
  | c :: t => if isWhiteSpace c then trimStart t else s
  end.

Definition trimEnd (s : jsstring) : jsstring :=
  reverse (trimStart (reverse s)).

(** [s.trim()] *)
Definition trim (s : jsstring) : jsstring := trimEnd (trimStart s).

(** [a.slice(b, e)] and [a.slice(b)] for indices that are not negative. *)
Definition slice {A} (b e : nat) (a : list A) : list A := take (e - b) (drop b a).
Definition sliceFrom {A} (b : nat) (a : list A) : list A := drop b a.

(** [a.find(p)]: the first element that satisfies [p], or [undefined]. *)
Fixpoint find {A} (p : A -> bool) (a : list A) : option A :=
  match a with
  | [] => None
  | x :: t => if p x then Some x else find p t
  end.

(** [a.some(p)] *)
Fixpoint some {A} (p : A -> bool) (a : list A) : bool :=
  match a with
  | [] => false
  | x :: t => p x || some p t
  end.

(** [[...new Set(a)]]: the elements of [a] in order of first insertion;
    a value already in the set is not inserted again. *)
Definition setAdd (seen : list jsstring) (x : jsstring) : list jsstring :=
  if bool_decide (x ∈ seen) then seen else seen ++ [x].

Definition spreadSet (a : list jsstring) : list jsstring := foldl setAdd [] a.

(** The decimal text of an array length, as a template literal prints it. *)
Definition numberToString (n : nat) : jsstring := js (pretty n).

(** [countTokens]: the text is split at every run of white space and at
    every run of characters that are neither word characters nor white space
    (the regular expression [\s+|[^\w\s]+]); the pieces that are not empty are
    the maximal runs of word characters [A-Za-z0-9_], which are counted. *)
Definition isWordChar (c : N) : bool :=
  ((48 <=? c) && (c <=? 57) || (65 <=? c) && (c <=? 90)
   || (97 <=? c) && (c <=? 122) || (c =? 95))%N.

Fixpoint countRuns (inWord : bool) (text : jsstring) : nat :=
  match text with
  | [] => 0
  | c :: t =>
      if isWordChar c
      then (if inWord then 0 else 1) + countRuns true t
      else countRuns false t
  end.

Definition countTokens (text : jsstring) : nat := countRuns false text.

(** ** JavaScript values and exceptions *)

(** The values [JSON.parse] builds, and [undefined] for a missing property.
    A number carries the text its conversion to a string gives. *)
Inductive JsVal :=
| VUndefined
| VNull
| VBool (b : bool)
| VNum (text : jsstring)
| VStr (s : jsstring)
| VArr (items : list JsVal)
| VObj (props : list (jsstring * JsVal)).

(** What a step throws (or a promise rejects with). *)
Inductive Exn :=
| TypeError
| SyntaxError
| IOError (what : string).

Inductive outcome (A : Type) :=
| Returns (a : A)
| Throws (e : Exn).
Arguments Returns {A} a.
Arguments Throws {A} e.

Definition obind {A B} (m : outcome A) (k : A -> outcome B) : outcome B :=
  match m with
  | Returns a => k a
  | Throws e => Throws e
  end.

(** [a.map(f)] for a callback that may throw: the first exception ends it. *)
Fixpoint mapThrowing {A B} (f : A -> outcome B) (a : list A) : outcome (list B) :=
  match a with
  | [] => Returns []
  | x :: t => obind (f x) (fun y => obind (mapThrowing f t) (fun ys => Returns (y :: ys)))
  end.

(** Own property lookup in an object built by [JSON.parse]. *)
Fixpoint ownProp (k : jsstring) (props : list (jsstring * JsVal)) : option JsVal :=
  match props with
  | [] => None
  | (k', v) :: rest => if bool_decide (k' = k) then Some v else ownProp k rest
  end.

(** [v.k] for the property names the source reads (filePath, messages, line,
    ruleId, message, name), none of which a prototype defines: reading a
    property of [null] or [undefined] throws, a primitive or an array has no
    such property. *)
Definition getProp (v : JsVal) (k : jsstring) : outcome JsVal :=
  match v with
  | VUndefined | VNull => Throws TypeError
  | VObj props => Returns (default VUndefined (ownProp k props))
  | _ => Returns VUndefined
  end.

(** The conversion to a string that a template literal applies.  An array
    joins its elements with ",", [null] and [undefined] elements giving the
    empty string; a plain object gives "[object Object]" unless an own
    property shadows [toString], and then the conversion throws. *)
Fixpoint ToString (v : JsVal) : outcome jsstring :=
  match v with
  | VUndefined => Returns (js "undefined")
  | VNull => Returns (js "null")
  | VBool b => Returns (if b then js "true" else js "false")
  | VNum text => Returns text
  | VStr s => Returns s
  | VArr items =>
      obind
        ((fix elements (l : list JsVal) : outcome (list jsstring) :=
            match l with
            | [] => Returns []
            | x :: t =>
                obind (match x with
                       | VUndefined | VNull => Returns []
                       | _ => ToString x
                       end)
                  (fun sx => obind (elements t) (fun st => Returns (sx :: st)))
            end) items)
        (fun parts => Returns (join (js ",") parts))
  | VObj props =>
      match ownProp (js "toString") props with
      | Some _ => Throws TypeError
      | None => Returns (js "[object Object]")
      end
  end.

(** [${x}] for a value that is a string or [undefined]. *)
Definition templateOpt (x : option jsstring) : jsstring :=
  default (js "undefined") x.

(** ** The Node runtime *)

(** The library functions the script calls and does not define. *)
Class NodeRuntime := {
  path_basename : jsstring -> jsstring;
  path_relative : jsstring -> jsstring -> jsstring;
  path_join : jsstring -> jsstring -> jsstring;
  JSON_parse : jsstring -> option JsVal;
  __dirname : jsstring;
}.

(** A directory tree as [readdirSync] and [statSync] show it: a directory
    lists its entries in listing order; [FsBroken] is an entry on which
    [statSync] throws; [FsUnreadable] is an entry that [statSync] reports as
    a directory and on which [readdirSync] throws. *)
Inductive FsNode :=
| FsFile
| FsDir (entries : list (jsstring * FsNode))
| FsBroken
| FsUnreadable.

(** The file system as the run reads it. *)
Record FileSystem := {
  gitignore : option jsstring;
  projectTree : list (jsstring * FsNode);
  readFile : jsstring -> outcome jsstring;
  packageJson : option (outcome jsstring);
}.

(** ** Pattern matcher *)

(** [readGitignore]: the lines of the ignore file that are not empty. *)
Definition readGitignore (fs : FileSystem) : list jsstring :=
  match gitignore fs with
  | Some text => filter (fun l => l ≠ []) (split LF text)
  | None => []
  end.

Definition builtinExcludes : list jsstring :=
  js <$> [ "concat.js"; "package-lock.json"; "/node_modules"; "/dist"; "/build";
    "/git"; "/firebase"; "/vscode"; "/coverage";
    "*.jpg"; "*.jpeg"; "*.png"; "*.gif"; "*.bmp"; "*.svg"; "*.ico"; "*.tif";
    "*.tiff"; "*.psd"; "*.ai"; "*.eps"; "*.indd"; "*.pdf"; "*.doc"; "*.docx";
    "*.xls"; "*.xlsx"; "*.ppt"; "*.pptx"; "*.odt"; "*.ods"; "*.odp";
    "*.mp3"; "*.wav"; "*.aac"; "*.m4a"; "*.mp4"; "*.avi"; "*.mov"; "*.wmv";
    "*.flv"; "*.zip"; "*.rar"; "*.7z"; "*.tar"; "*.gz"; "*.bz2"; "*.log";
    "*.d.ts"; "*.md" ]%string.

Definition excludeFiles (fs : FileSystem) : list jsstring :=
  readGitignore fs ++ builtinExcludes.

Section Matcher.
Context `{NodeRuntime}.

(** The callback of [excludeFiles.some]: does [pattern] exclude the file? *)
Definition excludedBy (fileName filePath pattern : jsstring) : bool :=
  if startsWith pattern (js "*.") then
    let extension := substring 1 pattern in
    endsWith fileName extension
  else if startsWith pattern (js "/") then
    includes filePath (substring 1 pattern)
  else
    bool_decide (fileName = pattern).

(** [shouldIncludeFile], with the global rule list as its first argument. *)
Definition shouldIncludeFile (excludeFiles : list jsstring) (filePath : jsstring) : bool :=
  let fileName := path_basename filePath in
  negb (some (excludedBy fileName filePath) excludeFiles).

(** ** Tree enumerator *)

(** The body of the [forEach] callback of [getFilePaths] on one entry, whose
    joined path is [filePath]. *)
Fixpoint visitEntry (excludeFiles : list jsstring) (node : FsNode)
    (dirPath filePath : jsstring) (arrayOfFiles : list jsstring) : outcome (list jsstring) :=
  let keep :=
    if shouldIncludeFile excludeFiles filePath
    then Returns (arrayOfFiles ++ [filePath])
    else Returns arrayOfFiles in
  match node with
  | FsBroken => Throws (IOError "statSync")
  | FsFile => keep
  | FsDir entries =>
      if bool_decide (filePath ≠ dirPath) then
        (fix forEach (files : list (jsstring * FsNode)) (acc : list jsstring) :=
           match files with
           | [] => Returns acc
           | (file, child) :: rest =>
               obind (visitEntry excludeFiles child filePath (path_join filePath file) acc)
                     (forEach rest)
           end) entries arrayOfFiles
      else keep
  | FsUnreadable =>
      if bool_decide (filePath ≠ dirPath) then Throws (IOError "readdirSync")
      else keep
  end.

(** [getFilePaths(dirPath, arrayOfFiles)] on a directory for which
    [readdirSync] returned these entries. *)
Fixpoint getFilePaths (excludeFiles : list jsstring) (dirPath : jsstring)
    (files : list (jsstring * FsNode)) (arrayOfFiles : list jsstring) : outcome (list jsstring) :=
  match files with
  | [] => Returns arrayOfFiles
  | (file, node) :: rest =>
      obind (visitEntry excludeFiles node dirPath (path_join dirPath file) arrayOfFiles)
            (getFilePaths excludeFiles dirPath rest)
  end.

End Matcher.

(** ** The run: state, environment and the monad of the orchestrator *)

(** What a run changes: whether the browser session is held, what was
    written to the console, to [output.md] and to the clipboard. *)
Record World := {
  browserOpen : bool;
  stderr : list (jsstring * Exn);
  stdout : list jsstring;
  outputFile : option jsstring;
  clipboard : option jsstring;
}.

Definition initialWorld : World :=
  {| browserOpen := false; stderr := []; stdout := [];
     outputFile := None; clipboard := None |}.

(** What the outside world answers during one run: each asynchronous or
    system call either returns or throws. *)
Record Env := {
  fs : FileSystem;
  launch : outcome unit;
  newPage : outcome unit;
  evaluateOnNewDocument : outcome unit;
  goto : outcome unit;
  waitForSelector : outcome unit;
  capturedErrors : outcome (list jsstring);
  errorOverlay : outcome (list jsstring);
  eslintRun : outcome jsstring;
  tscRun : outcome jsstring;
  clearOutput : outcome unit;
  writeOutput : outcome unit;
  clipboardWrite : outcome unit;
  browserClose : outcome unit;
}.

(** State passing with exceptions. *)
Definition M (A : Type) : Type := World -> outcome A * World.

Definition ret {A} (a : A) : M A := fun w => (Returns a, w).

Definition bind {A B} (m : M A) (k : A -> M B) : M B :=
  fun w =>
    match m w with
    | (Returns a, w') => k a w'
    | (Throws e, w') => (Throws e, w')
    end.

(** A call whose result the environment gives; it changes no state. *)
Definition call {A} (r : outcome A) : M A := fun w => (r, w).

(** [try { m } catch (error) { handler error }] *)
Definition tryCatch {A} (m : M A) (handler : Exn -> M A) : M A :=
  fun w =>
    match m w with
    | (Throws e, w') => handler e w'
    | r => r
    end.

Definition modify (f : World -> World) : M unit := fun w => (Returns tt, f w).

Notation "x <- m ;; k" := (bind m (fun x => k))
  (at level 100, m at next level, right associativity).
Notation "m ;;; k" := (bind m (fun _ => k))
  (at level 100, right associativity).

Definition console_error (label : jsstring) (error : Exn) : M unit :=
  modify (fun w =>
    {| browserOpen := browserOpen w; stderr := stderr w ++ [(label, error)];
       stdout := stdout w; outputFile := outputFile w; clipboard := clipboard w |}).

Definition console_log (text : jsstring) : M unit :=
  modify (fun w =>
    {| browserOpen := browserOpen w; stderr := stderr w;
       stdout := stdout w ++ [text]; outputFile := outputFile w;
       clipboard := clipboard w |}).

Definition setBrowserOpen (b : bool) : M unit :=
  modify (fun w =>
    {| browserOpen := b; stderr := stderr w; stdout := stdout w;
       outputFile := outputFile w; clipboard := clipboard w |}).

Definition setOutputFile (text : jsstring) : M unit :=
  modify (fun w =>
    {| browserOpen := browserOpen w; stderr := stderr w; stdout := stdout w;
       outputFile := Some text; clipboard := clipboard w |}).

Definition setClipboard (text : jsstring) : M unit :=
  modify (fun w =>
    {| browserOpen := browserOpen w; stderr := stderr w; stdout := stdout w;
       outputFile := outputFile w; clipboard := Some text |}).

(** [a.forEach(f)] for a callback that pushes onto an array declared outside
    and may throw: what was pushed before the exception stays. *)
Fixpoint forEachPush {A} (f : A -> list jsstring -> outcome unit * list jsstring)
    (a : list A) (pushed : list jsstring) : outcome unit * list jsstring :=
  match a with
  | [] => (Returns tt, pushed)
  | x :: t =>
      match f x pushed with
      | (Returns _, pushed') => forEachPush f t pushed'
      | (Throws e, pushed') => (Throws e, pushed')
      end
  end.

(** [v.forEach(f)] on a parsed value: only an array has [forEach]. *)
Definition valueForEach (v : JsVal) (f : JsVal -> list jsstring -> outcome unit * list jsstring)
    (pushed : list jsstring) : outcome unit * list jsstring :=
  match v with
  | VArr items => forEachPush f items pushed
  | _ => (Throws TypeError, pushed)
  end.

Section Pipeline.
Context `{NodeRuntime}.

(** ** Diagnostics collectors *)

(** The callback of [file.messages.forEach]. *)
Definition eslintMessage (relativePath : jsstring) (message : JsVal)
    (eslintErrors : list jsstring) : outcome unit * list jsstring :=
  let errorString :=
    obind (getProp message (js "line")) (fun line =>
    obind (getProp message (js "ruleId")) (fun ruleId =>
    obind (getProp message (js "message")) (fun text =>
    obind (ToString line) (fun sline =>
    obind (ToString text) (fun stext =>
    obind (ToString ruleId) (fun sruleId =>
      Returns (js "[" ++ relativePath ++ js "] Line " ++ sline ++ js ": "
               ++ stext ++ js " (" ++ sruleId ++ js ")"))))))) in
  match errorString with
  | Returns s => (Returns tt, eslintErrors ++ [s])
  | Throws e => (Throws e, eslintErrors)
  end.

(** The callback of [parsedOutput.forEach]; [path.relative] throws on an
    argument that is not a string. *)
Definition eslintFile (file : JsVal) (eslintErrors : list jsstring)
    : outcome unit * list jsstring :=
  match getProp file (js "filePath") with
  | Returns (VStr filePath) =>
      let relativePath := path_relative __dirname filePath in
      match getProp file (js "messages") with
      | Returns messages => valueForEach messages (eslintMessage relativePath) eslintErrors
      | Throws e => (Throws e, eslintErrors)
      end
  | Returns _ => (Throws TypeError, eslintErrors)
  | Throws e => (Throws e, eslintErrors)
  end.

(** The [try] block of [parseESLintOutput]. *)
Definition parseESLintBody (output : jsstring) : outcome unit * list jsstring :=
  match JSON_parse output with
  | None => (Throws SyntaxError, [])
  | Some parsedOutput => valueForEach parsedOutput eslintFile []
  end.

Definition parseESLintOutput (output : jsstring) : M (list jsstring) :=
  match parseESLintBody output with
  | (Returns _, eslintErrors) => ret eslintErrors
  | (Throws error, eslintErrors) =>
      console_error (js "Failed to parse ESLint output:") error ;;;
      ret eslintErrors
  end.

Definition summarizeTypescriptErrors (output : jsstring) : list jsstring :=
  let lines := split LF (trim output) in
  let typescriptErrors := filter (fun line => includes line (js "error TS") = true) lines in
  typescriptErrors.

(** The callback of [runtimeErrors.map]. *)
Definition summaryRuntimeError (error : jsstring) : outcome jsstring :=
  let lines := split LF error in
  match lines !! 0 with
  | None => Throws TypeError
  | Some line0 =>
      let firstLine := trim line0 in
      let fileInfo := find (fun line => includes line (js "at ")) (sliceFrom 1 lines) in
      Returns (js "- " ++ firstLine ++ nl ++ js "  " ++ templateOpt fileInfo)
  end.

(** ** Report assembler *)

Definition getProjectName (fs : FileSystem) : outcome JsVal :=
  match packageJson fs with
  | Some read =>
      obind read (fun text =>
        match JSON_parse text with
        | Some packageJson => getProp packageJson (js "name")
        | None => Throws SyntaxError
        end)
  | None => Returns (VStr (js "Unknown Project"))
  end.

(** A diagnostic section capped at five entries, and one that is not. *)
Definition cappedSection (errors : list jsstring) (sentinel : jsstring) : jsstring :=
  if bool_decide (0 < length errors) then join nl (slice 0 5 errors) else sentinel.

Definition fullSection (errors : list jsstring) (sentinel : jsstring) : jsstring :=
  if bool_decide (0 < length errors) then join nl errors else sentinel.

Definition overviewText : jsstring := js
"# Overview
This file provides a summary of the codebase, including code files. Please provide the updated and
fixed code for each distinct file that requires changes to fix intentionally introduced errors
(runtime, build, ESLint, and TypeScript), along with concise corrections. Do not include files
that do not require any changes.

## Summary
".

Definition generateOutput (fs : FileSystem)
    (codeFiles runtimeErrors buildErrors eslintErrors typescriptErrors : list jsstring)
    (summary : jsstring) : outcome jsstring :=
  let uniqueCodeFiles := spreadSet codeFiles in
  obind (obind (getProjectName fs) ToString) (fun projectName =>
  let output :=
    overviewText ++ summary ++ js "

# Project: " ++ projectName ++ js "

## Code Files

" ++ join nl uniqueCodeFiles ++ js "

## Runtime Errors

" ++ cappedSection runtimeErrors (js "No runtime errors found.") ++ js "

## Build Errors

" ++ cappedSection buildErrors (js "No build errors found.") ++ js "

## ESLint Errors

" ++ cappedSection eslintErrors (js "No ESLint errors found.") ++ js "

## TypeScript Errors

" ++ fullSection typescriptErrors (js "No TypeScript errors found.") ++ js "
" in
  Returns output).

(** ** Content renderer *)

Definition getFileContentWithStructure (fs : FileSystem) (filePath : jsstring)
    : outcome jsstring :=
  let relativeFilePath := path_relative __dirname filePath in
  if bool_decide (relativeFilePath = js "output.md") then Returns []
  else
    obind (readFile fs filePath) (fun raw =>
      let content := trim raw in
      if bool_decide (length content = 0) then Returns []
      else Returns (js "[" ++ relativeFilePath ++ js "]" ++ nl ++ content ++ nl
                    ++ js "..." ++ nl)).

(** ** Orchestrator *)

Definition summaryText (filePaths codeFiles summaryRuntimeErrors buildErrors
    eslintErrors typescriptErrors : list jsstring) : jsstring :=
  js "- Total files: " ++ numberToString (length filePaths) ++ js "
- Lines of code: " ++ numberToString (length (split LF (join [] codeFiles))) ++ js "
- Runtime errors: " ++ numberToString (length summaryRuntimeErrors) ++ js "
- Build errors: " ++ numberToString (length buildErrors) ++ js "
- ESLint errors: " ++ numberToString (length eslintErrors) ++ js "
- TypeScript errors: " ++ numberToString (length typescriptErrors).

(** The asynchronous function the script runs. *)
Definition main (env : Env) : M unit :=
  call (launch env) ;;;
  setBrowserOpen true ;;;
  call (newPage env) ;;;
  call (evaluateOnNewDocument env) ;;;
  call (goto env) ;;;
  call (waitForSelector env) ;;;
  runtimeErrors <- call (capturedErrors env) ;;
  summaryRuntimeErrors <- call (mapThrowing summaryRuntimeError runtimeErrors) ;;
  buildErrors <-
    tryCatch (call (errorOverlay env))
      (fun error =>
         console_error (js "Failed to retrieve build errors:") error ;;; ret []) ;;
  eslintErrors <-
    tryCatch (eslintOutput <- call (eslintRun env) ;; parseESLintOutput eslintOutput)
      (fun error => console_error (js "Failed to run ESLint:") error ;;; ret []) ;;
  typescriptErrors <-
    tryCatch (typescriptOutput <- call (tscRun env) ;;
              ret (summarizeTypescriptErrors typescriptOutput))
      (fun error => console_error (js "Failed to run TypeScript:") error ;;; ret []) ;;
  call (clearOutput env) ;;;
  setOutputFile [] ;;;
  filePaths <- call (getFilePaths (excludeFiles (fs env)) __dirname
                       (projectTree (fs env)) []) ;;
  codeFiles <- call (mapThrowing (getFileContentWithStructure (fs env)) filePaths) ;;
  let summary := summaryText filePaths codeFiles summaryRuntimeErrors buildErrors
                   eslintErrors typescriptErrors in
  output <- call (generateOutput (fs env) codeFiles summaryRuntimeErrors buildErrors
                    eslintErrors typescriptErrors summary) ;;
  call (writeOutput env) ;;;
  setOutputFile output ;;;
  call (clipboardWrite env) ;;;
  setClipboard output ;;;
  console_log (js "Output generated and copied to clipboard successfully!") ;;;
  console_log summary ;;;
  console_log (js "- Token count: " ++ numberToString (countTokens output)) ;;;
  call (browserClose env) ;;;
  setBrowserOpen false.

End Pipeline.

(** ** Specification vocabulary *)

(** [x] occurs in [s] as a contiguous substring. *)
Definition occursIn (x s : jsstring) : Prop :=
  ∃ pre post, s = pre ++ x ++ post.

(** A rule matches a path under its kind: an extension rule "*.rest" when
    the base name ends with ".rest", a fragment rule "/frag" when the path
    contains "frag", any other rule when the base name is the rule. *)
Inductive rule_matches `{NodeRuntime} (P : jsstring) : jsstring -> Prop :=
| match_extension rest :
    (js "." ++ rest) `suffix_of` path_basename P ->
    rule_matches P (js "*." ++ rest)
| match_fragment frag :
    occursIn frag P ->
    rule_matches P (js "/" ++ frag)
| match_exact rule :
    ¬ js "*." `prefix_of` rule ->
    ¬ js "/" `prefix_of` rule ->
    path_basename P = rule ->
    rule_matches P rule.

(** An occurrence of [frag] in [P] that starts a path segment. *)
Definition atSegmentStart (frag P : jsstring) : Prop :=
  ∃ seg, seg ∈ split 47%N P ∧ frag `prefix_of` seg.

(** White space in the sense of [trim]. *)
Definition blank (s : jsstring) : Prop := Forall (fun c => isWhiteSpace c = true) s.

(** [s] does not begin with white space. *)
Definition startsClean (s : jsstring) : Prop :=
  match s with
  | [] => True
  | c :: _ => isWhiteSpace c = false
  end.

(** [content] is [raw] without its leading and trailing white space. *)
Definition trimmedOf (raw content : jsstring) : Prop :=
  ∃ ws1 ws2, raw = ws1 ++ content ++ ws2 ∧ blank ws1 ∧ blank ws2
             ∧ startsClean content ∧ startsClean (reverse content).

(** The block of a file in the report: the path in brackets, the content,
    and a line of three dots. *)
Definition fileBlock (relativePath content : jsstring) : jsstring :=
  js "[" ++ relativePath ++ js "]" ++ nl ++ content ++ nl ++ js "..." ++ nl.

(** Entries joined by line breaks, or the sentinel when there is none. *)
Definition renderEntries (entries : list jsstring) (sentinel : jsstring) : jsstring :=
  match entries with
  | [] => sentinel
  | _ => join nl entries
  end.

(** The four diagnostic sections of a report that shows these entries. *)
Definition diagnosticSections (runtime build lint typecheck : list jsstring) : jsstring :=
  js "## Runtime Errors

" ++ renderEntries runtime (js "No runtime errors found.") ++ js "

## Build Errors

" ++ renderEntries build (js "No build errors found.") ++ js "

## ESLint Errors

" ++ renderEntries lint (js "No ESLint errors found.") ++ js "

## TypeScript Errors

" ++ renderEntries typecheck (js "No TypeScript errors found.") ++ js "
".

(** Every step of a run that stands outside the three [try] blocks
    answers: the browser steps, the two writes, the enumeration and the
    reading of the files, the project name, the clipboard and the closing. *)
Definition unguardedStepsSucceed `{NodeRuntime} (env : Env) : Prop :=
  launch env = Returns tt
  ∧ newPage env = Returns tt
  ∧ evaluateOnNewDocument env = Returns tt
  ∧ goto env = Returns tt
  ∧ waitForSelector env = Returns tt
  ∧ (∃ runtimeErrors, capturedErrors env = Returns runtimeErrors)
  ∧ clearOutput env = Returns tt
  ∧ (∃ filePaths codeFiles,
       getFilePaths (excludeFiles (fs env)) __dirname (projectTree (fs env)) []
       = Returns filePaths
       ∧ mapThrowing (getFileContentWithStructure (fs env)) filePaths
         = Returns codeFiles)
  ∧ (∃ projectName, obind (getProjectName (fs env)) ToString = Returns projectName)
  ∧ writeOutput env = Returns tt
  ∧ clipboardWrite env = Returns tt
  ∧ browserClose env = Returns tt.

(** ** A concrete runtime and project, for running the model *)

(** [path.basename] on a POSIX path: the last segment that is not empty. *)
Definition posixBasename (p : jsstring) : jsstring :=
  default [] (last (filter (fun seg => seg ≠ []) (split 47%N p))).

(** [path.relative] for a path below the root, written without "." and
    ".." segments; other paths are returned as they are. *)
Definition relativeBelow (from to : jsstring) : jsstring :=
  if startsWith to (from ++ js "/") then drop (S (length from)) to else to.

Definition quoted (s : jsstring) : jsstring := [34%N] ++ s ++ [34%N].

(** The text of a [package.json] that names the project "demo". *)
Definition demoPackageText : jsstring :=
  js "{" ++ quoted (js "name") ++ js ":" ++ quoted (js "demo") ++ js "}".

(** [JSON.parse] restricted to two texts, the [package.json] above and the
    empty array; it rejects every other text (the model project feeds it
    nothing else that is JSON). *)
Definition parseTable (text : jsstring) : option JsVal :=
  if bool_decide (text = demoPackageText)
  then Some (VObj [(js "name", VStr (js "demo"))])
  else if bool_decide (text = js "[]") then Some (VArr [])
  else None.

Definition demoRuntime : NodeRuntime :=
  {| path_basename := posixBasename;
     path_relative := relativeBelow;
     path_join := fun a b => a ++ js "/" ++ b;
     JSON_parse := parseTable;
     __dirname := js "/proj" |}.

(** A project: [a.js], an image, a file of white space only, and a source
    directory; the ignore file lists the image. *)
Definition demoFiles : FileSystem :=
  {| gitignore := Some (js "b.png" ++ nl);
     projectTree :=
       [ (js "a.js", FsFile); (js "b.png", FsFile); (js "blank.js", FsFile);
         (js "src", FsDir [ (js "app.js", FsFile) ]) ];
     readFile := fun p =>
       if bool_decide (p = js "/proj/a.js") then Returns (js "const x=1;" ++ nl)
       else if bool_decide (p = js "/proj/blank.js") then Returns (js "  " ++ nl ++ js " ")
       else if bool_decide (p = js "/proj/src/app.js") then Returns (js "let y;")
       else Throws (IOError "ENOENT");
     packageJson := Some (Returns demoPackageText) |}.

(** The same project without [blank.js], and without [package.json]. *)
Definition demoFilesNoBlank : FileSystem :=
  {| gitignore := gitignore demoFiles;
     projectTree :=
       [ (js "a.js", FsFile); (js "b.png", FsFile);
         (js "src", FsDir [ (js "app.js", FsFile) ]) ];
     readFile := readFile demoFiles;
     packageJson := packageJson demoFiles |}.

Definition demoFilesNoPackage : FileSystem :=
  {| gitignore := gitignore demoFiles;
     projectTree := projectTree demoFiles;
     readFile := readFile demoFiles;
     packageJson := None |}.

(** A run in which every step answers; the navigation result and the
    linter output are left open. *)
Definition demoEnv (navigation : outcome unit) (lintOutput : jsstring) : Env :=
  {| fs := demoFiles;
     launch := Returns tt;
     newPage := Returns tt;
     evaluateOnNewDocument := Returns tt;
     goto := navigation;
     waitForSelector := Returns tt;
     capturedErrors := Returns [js "ReferenceError: x is not defined"];
     errorOverlay := Returns [];
     eslintRun := Returns lintOutput;
     tscRun := Returns (js "src/app.ts(1,1): error TS2304: Cannot find name.");
     clearOutput := Returns tt;
     writeOutput := Returns tt;
     clipboardWrite := Returns tt;
     browserClose := Returns tt |}.

(** Eight numbered diagnostics with a common prefix. *)
Definition eight (prefix : string) : list jsstring :=
  (fun n : nat => js prefix ++ numberToString n) <$> seq 1 8.

(** The report for eight lint and eight type-check diagnostics. *)
Definition demoReport : jsstring :=
  match @generateOutput demoRuntime demoFiles [] [] []
          (eight "lint ") (eight "type ") (js "summary") with
  | Returns output => output
  | Throws _ => []
  end.


(** ** Trees, as the enumerator walks them *)

Section TreeVocabulary.
Context `{NodeRuntime}.

(** The paths of the entries that are not directories, depth first and in
    listing order, below an entry whose joined path is [filePath]. *)
Fixpoint nodePaths (node : FsNode) (filePath : jsstring) : list jsstring :=
  match node with
  | FsFile => [filePath]
  | FsBroken | FsUnreadable => []
  | FsDir entries =>
      (fix below (files : list (jsstring * FsNode)) : list jsstring :=
         match files with
         | [] => []
         | (file, child) :: rest => nodePaths child (path_join filePath file) ++ below rest
         end) entries
  end.

Fixpoint entryPaths (dirPath : jsstring) (files : list (jsstring * FsNode)) : list jsstring :=
  match files with
  | [] => []
  | (file, node) :: rest => nodePaths node (path_join dirPath file) ++ entryPaths dirPath rest
  end.

(** A tree on which [statSync] and [readdirSync] answer everywhere and in
    which joining a name to a directory path never gives that directory path
    back. *)
Fixpoint regularNode (node : FsNode) (dirPath filePath : jsstring) : Prop :=
  match node with
  | FsFile => True
  | FsBroken | FsUnreadable => False
  | FsDir entries =>
      filePath ≠ dirPath
      ∧ (fix each (files : list (jsstring * FsNode)) : Prop :=
           match files with
           | [] => True
           | (file, child) :: rest =>
               regularNode child filePath (path_join filePath file) ∧ each rest
           end) entries
  end.

Fixpoint regularEntries (dirPath : jsstring) (files : list (jsstring * FsNode)) : Prop :=
  match files with
  | [] => True
  | (file, node) :: rest =>
      regularNode node dirPath (path_join dirPath file) ∧ regularEntries dirPath rest
  end.

(** Every directory below lists its entries: [readdirSync] throws nowhere. *)
Fixpoint readableNode (node : FsNode) : Prop :=
  match node with
  | FsFile | FsBroken => True
  | FsUnreadable => False
  | FsDir entries =>
      (fix each (files : list (jsstring * FsNode)) : Prop :=
         match files with
         | [] => True
         | (_, child) :: rest => readableNode child ∧ each rest
         end) entries
  end.

(** The walk reaches an entry on which [statSync] throws: the entry is
    below this one, inside directories that are entered, and no directory
    listed before it on the way is unreadable. *)
Fixpoint meetsBroken (node : FsNode) (dirPath filePath : jsstring) : Prop :=
  match node with
  | FsFile | FsUnreadable => False
  | FsBroken => True
  | FsDir entries =>
      filePath ≠ dirPath
      ∧ (fix any (files : list (jsstring * FsNode)) : Prop :=
           match files with
           | [] => False
           | (file, child) :: rest =>
               meetsBroken child filePath (path_join filePath file)
               ∨ (readableNode child ∧ any rest)
           end) entries
  end.

Fixpoint entriesMeetBroken (dirPath : jsstring) (files : list (jsstring * FsNode)) : Prop :=
  match files with
  | [] => False
  | (file, node) :: rest =>
      meetsBroken node dirPath (path_join dirPath file)
      ∨ (readableNode node ∧ entriesMeetBroken dirPath rest)
  end.

End TreeVocabulary.

(** ** The pieces [countTokens] counts *)

(** [text.split(/\s+|[^\w\s]+/)], read left to right: a separator is a
    maximal run of white space or a maximal run of characters that are
    neither word characters nor white space; the text between two
    separators is a piece, also when it is empty (two separators of
    different kinds that touch, a separator at either end of the text). *)
Inductive SplitMode :=
| InPiece
| InSpace
| InOther.

Fixpoint splitTokens (mode : SplitMode) (piece : jsstring) (text : jsstring)
    : list jsstring :=
  match text with
  | [] => [piece]
  | c :: t =>
      if isWordChar c then splitTokens InPiece (piece ++ [c]) t
      else if isWhiteSpace c then
        match mode with
        | InSpace => splitTokens InSpace [] t
        | _ => piece :: splitTokens InSpace [] t
        end
      else
        match mode with
        | InOther => splitTokens InOther [] t
        | _ => piece :: splitTokens InOther [] t
        end
  end.

(** [tokens] and [filteredTokens] of [countTokens]. *)
Definition tokens (text : jsstring) : list jsstring := splitTokens InPiece [] text.

Definition filteredTokens (text : jsstring) : list jsstring :=
  filter (fun token => 0 < length token) (tokens text).

(** ** Child processes *)

(** What a spawned child emits, in order: a chunk on its standard output
    or on its standard error (as [data.toString()] gives it), an error, or
    the closing of its streams. *)
Inductive ChildEvent :=
| StdoutData (data : jsstring)
| StderrData (data : jsstring)
| ErrorEvent (error : Exn)
| CloseEvent.

Record CommandResult := {
  output : jsstring;
  errorOutput : jsstring;
}.

(** The handlers of [runCommand] on the events still to come, with the two
    strings collected so far: the promise settles at the first error or
    close, and [None] is a promise that never settles. *)
Fixpoint runCommandFrom (events : list ChildEvent) (output errorOutput : jsstring)
    : option (outcome CommandResult) :=
  match events with
  | [] => None
  | StdoutData data :: rest => runCommandFrom rest (output ++ data) errorOutput
  | StderrData data :: rest => runCommandFrom rest output (errorOutput ++ data)
  | ErrorEvent error :: _ => Some (Throws error)
  | CloseEvent :: _ => Some (Returns {| output := output; errorOutput := errorOutput |})
  end.

Definition runCommand (events : list ChildEvent) : option (outcome CommandResult) :=
  runCommandFrom events [] [].

(** The chunks a list of events carries on each stream, concatenated. *)
Fixpoint stdoutOf (events : list ChildEvent) : jsstring :=
  match events with
  | [] => []
  | StdoutData data :: rest => data ++ stdoutOf rest
  | _ :: rest => stdoutOf rest
  end.

Fixpoint stderrOf (events : list ChildEvent) : jsstring :=
  match events with
  | [] => []
  | StderrData data :: rest => data ++ stderrOf rest
  | _ :: rest => stderrOf rest
  end.

Definition isData (event : ChildEvent) : Prop :=
  match event with
  | StdoutData _ | StderrData _ => True
  | _ => False
  end.

(** ** Linter results *)

(** A message of the linter: the text of its line number, its rule (or
    [null], as for a parse error) and its text. *)
Record LintMessage := {
  lm_line : jsstring;
  lm_ruleId : option jsstring;
  lm_message : jsstring;
}.

Record LintFile := {
  lf_path : jsstring;
  lf_messages : list LintMessage;
}.

(** The parsed value [v] is an object that holds the message [m] (and
    maybe more properties). *)
Definition messageValue (m : LintMessage) (v : JsVal) : Prop :=
  ∃ props,
    v = VObj props
    ∧ ownProp (js "line") props = Some (VNum (lm_line m))
    ∧ ownProp (js "ruleId") props
      = Some (match lm_ruleId m with Some rule => VStr rule | None => VNull end)
    ∧ ownProp (js "message") props = Some (VStr (lm_message m)).

Definition fileValue (f : LintFile) (v : JsVal) : Prop :=
  ∃ props values,
    v = VObj props
    ∧ ownProp (js "filePath") props = Some (VStr (lf_path f))
    ∧ ownProp (js "messages") props = Some (VArr values)
    ∧ Forall2 messageValue (lf_messages f) values.

(** The line of the report for one message. *)
Definition formatLint (relativePath : jsstring) (m : LintMessage) : jsstring :=
  js "[" ++ relativePath ++ js "] Line " ++ lm_line m ++ js ": " ++ lm_message m
  ++ js " (" ++ default (js "null") (lm_ruleId m) ++ js ")".

Definition lintEntries `{NodeRuntime} (files : list LintFile) : list jsstring :=
  concat ((fun f => formatLint (path_relative __dirname (lf_path f)) <$> lf_messages f)
            <$> files).

(** ** A linter report, for running the lint collector *)

Definition lintMessageText (rule : jsstring) (message : string) (line : string) : jsstring :=
  js "{" ++ quoted (js "ruleId") ++ js ":" ++ rule ++ js ","
  ++ quoted (js "severity") ++ js ":2,"
  ++ quoted (js "message") ++ js ":" ++ quoted (js message) ++ js ","
  ++ quoted (js "line") ++ js ":" ++ js line ++ js "}".

Definition lintMessageValue (rule : JsVal) (message : string) (line : string) : JsVal :=
  VObj [ (js "ruleId", rule); (js "severity", VNum (js "2"));
         (js "message", VStr (js message)); (js "line", VNum (js line)) ].

(** The result of the linter for [src/app.js]: an unused variable on line 3
    and a parse error, which has no rule, on line 7. *)
Definition lintFileText : jsstring :=
  js "{" ++ quoted (js "filePath") ++ js ":" ++ quoted (js "/proj/src/app.js") ++ js ","
  ++ quoted (js "messages") ++ js ":["
  ++ lintMessageText (quoted (js "no-unused-vars")) "x is unused" "3" ++ js ","
  ++ lintMessageText (js "null") "Parsing error" "7" ++ js "]}".

Definition lintFileValue : JsVal :=
  VObj [ (js "filePath", VStr (js "/proj/src/app.js"));
         (js "messages",
          VArr [ lintMessageValue (VStr (js "no-unused-vars")) "x is unused" "3";
                 lintMessageValue VNull "Parsing error" "7" ]) ].

Definition lintText : jsstring := js "[" ++ lintFileText ++ js "]".

(** The same report with [null] where a second file should stand. *)
Definition lintTextWithNull : jsstring :=
  js "[" ++ lintFileText ++ js ",null," ++ lintFileText ++ js "]".

(** The runtime of the model project, with [JSON.parse] restricted to the
    two linter reports and the empty object. *)
Definition lintRuntime : NodeRuntime :=
  {| path_basename := posixBasename;
     path_relative := relativeBelow;
     path_join := fun a b => a ++ js "/" ++ b;
     JSON_parse := fun text =>
       if bool_decide (text = lintText) then Some (VArr [lintFileValue])
       else if bool_decide (text = lintTextWithNull)
            then Some (VArr [lintFileValue; VNull; lintFileValue])
       else if bool_decide (text = js "{}") then Some (VObj [])
       else None;
     __dirname := js "/proj" |}.

Definition lintFile : LintFile :=
  {| lf_path := js "/proj/src/app.js";
     lf_messages :=
       [ {| lm_line := js "3"; lm_ruleId := Some (js "no-unused-vars");
            lm_message := js "x is unused" |};
         {| lm_line := js "7"; lm_ruleId := None; lm_message := js "Parsing error" |} ] |}.

(** The model project with another text in [package.json]. *)
Definition demoFilesWithPackage (text : jsstring) : FileSystem :=
  {| gitignore := gitignore demoFiles;
     projectTree := projectTree demoFiles;
     readFile := readFile demoFiles;
     packageJson := Some (Returns text) |}.

(** The steps of a run before the files are listed all answer. *)
Definition stepsBeforeListingSucceed (env : Env) : Prop :=
  launch env = Returns tt
  ∧ newPage env = Returns tt
  ∧ evaluateOnNewDocument env = Returns tt
  ∧ goto env = Returns tt
  ∧ waitForSelector env = Returns tt
  ∧ (∃ runtimeErrors, capturedErrors env = Returns runtimeErrors)
  ∧ clearOutput env = Returns tt.

(** Listing the files, reading them or reading the project name throws. *)
Definition reportInputsThrow `{NodeRuntime} (env : Env) (e : Exn) : Prop :=
  getFilePaths (excludeFiles (fs env)) __dirname (projectTree (fs env)) [] = Throws e
  ∨ (∃ filePaths,
       getFilePaths (excludeFiles (fs env)) __dirname (projectTree (fs env)) []
       = Returns filePaths
       ∧ (mapThrowing (getFileContentWithStructure (fs env)) filePaths = Throws e
          ∨ (∃ codeFiles,
               mapThrowing (getFileContentWithStructure (fs env)) filePaths
               = Returns codeFiles
               ∧ obind (getProjectName (fs env)) ToString = Throws e))).

(** A run of the model project whose [package.json] has another text. *)
Definition demoEnvWithPackage (text : jsstring) : Env :=
  {| fs := demoFilesWithPackage text;
     launch := Returns tt;
     newPage := Returns tt;
     evaluateOnNewDocument := Returns tt;
     goto := Returns tt;
     waitForSelector := Returns tt;
     capturedErrors := Returns [];
     errorOverlay := Throws (IOError "detached");
     eslintRun := Throws (IOError "ENOENT");
     tscRun := Throws (IOError "ENOENT");
     clearOutput := Returns tt;
     writeOutput := Returns tt;
     clipboardWrite := Returns tt;
     browserClose := Returns tt |}.

(** The three diagnostic lists a run ends up with: what the guarded step
    gave, or the empty array when it threw. *)
Definition buildErrorsOf (env : Env) : list jsstring :=
  match errorOverlay env with
  | Returns lines => lines
  | Throws _ => []
  end.

Definition eslintErrorsOf `{NodeRuntime} (env : Env) : list jsstring :=
  match eslintRun env with
  | Returns eslintOutput => (parseESLintBody eslintOutput).2
  | Throws _ => []
  end.

Definition typescriptErrorsOf (env : Env) : list jsstring :=
  match tscRun env with
  | Returns typescriptOutput => summarizeTypescriptErrors typescriptOutput
  | Throws _ => []
  end.

(** ** Proof steps for runs of the orchestrator *)

(** Unfold the monad and the state updates of one step. *)
Ltac run_step :=
  cbv beta iota zeta
      delta [bind call ret tryCatch modify console_error console_log
             setBrowserOpen setOutputFile setClipboard parseESLintOutput
             browserOpen stderr stdout outputFile clipboard fst snd].

Ltac case_outcome r :=
  let a := fresh "a" in let e := fresh "e" in let E := fresh "E" in
  destruct r as [a|e] eqn:E; run_step.

Ltac case_unit r :=
  let e := fresh "e" in let E := fresh "E" in
  destruct r as [[]|e] eqn:E; run_step.


(** * Properties *)

(** ** String primitives against their declarative reading *)

Lemma startsWith_prefix (s p : jsstring) :
  startsWith s p = true ↔ p `prefix_of` s.
Proof.
  unfold startsWith. split.
  - case_decide; [|discriminate]. intros Heq%bool_decide_eq_true.
    exists (drop (length p) s). rewrite <- Heq at 1. by rewrite take_drop.
  - intros [k ->]. rewrite length_app. case_decide; [|lia].
    apply bool_decide_eq_true. apply take_app_length.
Qed.

Lemma endsWith_suffix (s p : jsstring) :
  endsWith s p = true ↔ p `suffix_of` s.
Proof.
  unfold endsWith. split.
  - case_decide; [|discriminate]. intros Heq%bool_decide_eq_true.
    exists (take (length s - length p) s). rewrite <- Heq at 2. by rewrite take_drop.
  - intros [k ->]. rewrite length_app. case_decide; [|lia].
    apply bool_decide_eq_true. apply drop_app_length'. lia.
Qed.

Lemma occursIn_cons (x : jsstring) (c : N) (t : jsstring) :
  occursIn x (c :: t) ↔ x `prefix_of` (c :: t) ∨ occursIn x t.
Proof.
  split.
  - intros (pre & post & Heq). destruct pre as [|c' pre]; simpl in Heq.
    + left. by exists post.
    + right. injection Heq as -> ->. by exists pre, post.
  - intros [[k ->]|(pre & post & ->)].
    + by exists [], k.
    + by exists (c :: pre), post.
Qed.

Lemma includes_occursIn (s p : jsstring) :
  includes s p = true ↔ occursIn p s.
Proof.
  induction s as [|c t IH]; simpl.
  - rewrite orb_false_r, startsWith_prefix. split.
    + intros [k ->]. by exists [], k.
    + intros (pre & post & Heq). symmetry in Heq.
      apply app_eq_nil in Heq as [-> Heq]. apply app_eq_nil in Heq as [-> ->].
      by exists [].
  - rewrite orb_true_iff, startsWith_prefix, IH. symmetry. apply occursIn_cons.
Qed.

Lemma some_exists {A} (p : A -> bool) (a : list A) :
  some p a = true ↔ ∃ x, x ∈ a ∧ p x = true.
Proof.
  induction a as [|y t IH]; simpl.
  - split; [discriminate|]. intros (x & Hx & _). by apply elem_of_nil in Hx.
  - rewrite orb_true_iff, IH. split.
    + intros [Hy|(x & Hx & Hp)]; [exists y|exists x]; split; auto; by constructor.
    + intros (x & [->|Hx]%elem_of_cons & Hp); eauto.
Qed.

Lemma some_app {A} (p : A -> bool) (a b : list A) :
  some p (a ++ b) = some p a || some p b.
Proof. induction a as [|y t IH]; simpl; [done|]. by rewrite IH, orb_assoc. Qed.

Section MatcherProperties.
Context `{NodeRuntime}.

Lemma rule_matches_inv (P rule : jsstring) :
  rule_matches P rule ->
  (∃ rest, rule = js "*." ++ rest ∧ (js "." ++ rest) `suffix_of` path_basename P)
  ∨ (∃ frag, rule = js "/" ++ frag ∧ occursIn frag P)
  ∨ (¬ js "*." `prefix_of` rule ∧ ¬ js "/" `prefix_of` rule ∧ path_basename P = rule).
Proof. destruct 1; eauto 6. Qed.

(** The callback of [some] decides [rule_matches]. *)
Lemma excludedBy_rule_matches (P rule : jsstring) :
  excludedBy (path_basename P) P rule = true ↔ rule_matches P rule.
Proof.
  unfold excludedBy, substring.
  destruct (startsWith rule (js "*.")) eqn:Hext.
  - apply startsWith_prefix in Hext as [rest ->].
    rewrite endsWith_suffix. split.
    + intros Hs. by apply match_extension.
    + intros [(rest' & Heq & Hs)|[(frag & Heq & _)|(Hn1 & _)]]%rule_matches_inv.
      * by simplify_eq.
      * discriminate Heq.
      * exfalso. apply Hn1. by exists rest.
  - assert (¬ js "*." `prefix_of` rule) as Hn1.
    { intros Hp%startsWith_prefix. congruence. }
    destruct (startsWith rule (js "/")) eqn:Hfrag.
    + apply startsWith_prefix in Hfrag as [frag ->].
      rewrite includes_occursIn. split.
      * intros Ho. by apply match_fragment.
      * intros [(rest' & Heq & _)|[(frag' & Heq & Ho)|(_ & Hn2 & _)]]%rule_matches_inv.
        -- discriminate Heq.
        -- by simplify_eq.
        -- exfalso. apply Hn2. by exists frag.
    + assert (¬ js "/" `prefix_of` rule) as Hn2.
      { intros Hp%startsWith_prefix. congruence. }
      rewrite bool_decide_eq_true. split.
      * intros Hb. by apply match_exact.
      * intros [(rest' & Heq & _)|[(frag' & Heq & _)|(_ & _ & Hb)]]%rule_matches_inv.
        -- exfalso. apply Hn1. by exists rest'.
        -- exfalso. apply Hn2. by exists frag'.
        -- exact Hb.
Qed.

Lemma shouldIncludeFile_excluded (R : list jsstring) (P rule : jsstring) :
  rule ∈ R -> rule_matches P rule -> shouldIncludeFile R P = false.
Proof.
  intros Hin Hm. unfold shouldIncludeFile. apply negb_false_iff, some_exists.
  exists rule. split; [done|]. by apply excludedBy_rule_matches.
Qed.

(** C1: [shouldIncludeFile] answers [false] exactly when some rule of the
    list matches the path under its kind: an extension rule "*.rest" on a
    base name that ends with ".rest", a fragment rule "/frag" on a path
    that contains "frag", any other rule on a base name equal to it. *)
Theorem shouldIncludeFile_false_iff (R : list jsstring) (P : jsstring) :
  shouldIncludeFile R P = false ↔ ∃ rule, rule ∈ R ∧ rule_matches P rule.
Proof.
  unfold shouldIncludeFile. rewrite negb_false_iff, some_exists.
  by setoid_rewrite excludedBy_rule_matches.
Qed.

(** C9: a rule that does not match the path can be added anywhere in the
    rule list without changing the answer for that path. *)
Theorem shouldIncludeFile_add_nonmatching (R1 R2 : list jsstring) (rule P : jsstring) :
  ¬ rule_matches P rule ->
  shouldIncludeFile (R1 ++ rule :: R2) P = shouldIncludeFile (R1 ++ R2) P.
Proof.
  intros Hno. unfold shouldIncludeFile. f_equal.
  rewrite !some_app. simpl.
  destruct (excludedBy (path_basename P) P rule) eqn:Hex; [|done].
  by apply excludedBy_rule_matches in Hex.
Qed.

(** C7: the fragment rule "/build" matches the path "rebuild/x.js", in which
    "build" occurs but starts no path segment; the rule list of the script
    holds that rule, so the file is excluded whatever the ignore file says. *)
Theorem fragment_rule_ignores_segment_boundary (files : FileSystem) :
  rule_matches (js "rebuild/x.js") (js "/build")
  ∧ shouldIncludeFile [js "/build"] (js "rebuild/x.js") = false
  ∧ shouldIncludeFile (excludeFiles files) (js "rebuild/x.js") = false
  ∧ occursIn (js "build") (js "rebuild/x.js")
  ∧ ¬ atSegmentStart (js "build") (js "rebuild/x.js").
Proof.
  assert (occursIn (js "build") (js "rebuild/x.js")) as Ho.
  { by exists (js "re"), (js "/x.js"). }
  assert (rule_matches (js "rebuild/x.js") (js "/build")) as Hm.
  { by apply (match_fragment _ (js "build")). }
  split_and!; [done| | |done|].
  - apply (shouldIncludeFile_excluded _ _ (js "/build"));
      [apply list_elem_of_singleton; done|done].
  - apply (shouldIncludeFile_excluded _ _ (js "/build")); [|done].
    unfold excludeFiles. apply elem_of_app. right.
    unfold builtinExcludes. apply list_elem_of_fmap. exists "/build"%string.
    split; [done|]. repeat (first [apply list_elem_of_here | apply list_elem_of_further]).
  - intros (seg & Hin & Hpre).
    assert (split 47%N (js "rebuild/x.js") = [js "rebuild"; js "x.js"]) as Hs
      by (vm_compute; reflexivity).
    rewrite Hs in Hin. apply elem_of_cons in Hin as [->|Hin].
    + apply startsWith_prefix in Hpre. vm_compute in Hpre. discriminate.
    + apply list_elem_of_singleton in Hin as ->.
      apply startsWith_prefix in Hpre. vm_compute in Hpre. discriminate.
Qed.

End MatcherProperties.

(** The rule "*.png" does not match the path "src/app.js" (base name
    "app.js"), so adding it to the rule list ["concat.js"] changes nothing. *)
Lemma shouldIncludeFile_add_nonmatching_witness :
  @shouldIncludeFile demoRuntime ([js "concat.js"] ++ js "*.png" :: []) (js "src/app.js")
  = @shouldIncludeFile demoRuntime ([js "concat.js"] ++ []) (js "src/app.js").
Proof.
  apply (@shouldIncludeFile_add_nonmatching demoRuntime).
  intros Hm. apply (@excludedBy_rule_matches demoRuntime) in Hm.
  vm_compute in Hm. discriminate.
Defined.

(** ** Trimming *)

Lemma trimStart_app_blank (ws r : jsstring) :
  blank ws -> trimStart (ws ++ r) = trimStart r.
Proof.
  induction 1 as [|c ws Hc _ IH]; simpl; [done|]. by rewrite Hc.
Qed.

Lemma trimStart_clean (s : jsstring) : startsClean s -> trimStart s = s.
Proof. destruct s as [|c t]; simpl; [done|]. by intros ->. Qed.

Lemma trimStart_blank (s : jsstring) : blank s -> trimStart s = [].
Proof. intros Hb. rewrite <- (app_nil_r s). by rewrite trimStart_app_blank. Qed.

Lemma trimStart_split (s : jsstring) :
  ∃ ws, s = ws ++ trimStart s ∧ blank ws ∧ startsClean (trimStart s).
Proof.
  induction s as [|c t (ws & Heq & Hb & Hc)]; simpl.
  - exists []. split_and!; [done|constructor|done].
  - destruct (isWhiteSpace c) eqn:Hw.
    + exists (c :: ws). split_and!; [by rewrite Heq at 1|by constructor|done].
    + exists []. split_and!; [done|constructor|simpl; done].
Qed.

Lemma blank_reverse (s : jsstring) : blank s -> blank (reverse s).
Proof. unfold blank. rewrite !Forall_forall. intros Hb c Hc. apply Hb. by apply elem_of_reverse. Qed.

Lemma trimEnd_app_blank (r ws : jsstring) :
  blank ws -> trimEnd (r ++ ws) = trimEnd r.
Proof.
  intros Hb. unfold trimEnd. rewrite reverse_app.
  by rewrite trimStart_app_blank by by apply blank_reverse.
Qed.

Lemma trimEnd_clean (s : jsstring) : startsClean (reverse s) -> trimEnd s = s.
Proof. intros Hc. unfold trimEnd. by rewrite trimStart_clean, reverse_involutive. Qed.

Lemma trimEnd_split (s : jsstring) :
  ∃ ws, s = trimEnd s ++ ws ∧ blank ws ∧ startsClean (reverse (trimEnd s)).
Proof.
  destruct (trimStart_split (reverse s)) as (ws & Heq & Hb & Hc).
  exists (reverse ws). unfold trimEnd. split_and!.
  - rewrite <- reverse_app, <- Heq. by rewrite reverse_involutive.
  - by apply blank_reverse.
  - by rewrite reverse_involutive.
Qed.

Lemma trimEnd_prefix_clean (s : jsstring) :
  startsClean s -> startsClean (trimEnd s).
Proof.
  intros Hc. destruct (trimEnd_split s) as (ws & Heq & Hb & _).
  destruct (trimEnd s) as [|c t] eqn:Ht; [done|].
  rewrite Heq in Hc. exact Hc.
Qed.

(** [trim] computes the trimmed content. *)
Lemma trim_trimmedOf (raw : jsstring) : trimmedOf raw (trim raw).
Proof.
  destruct (trimStart_split raw) as (ws1 & Heq1 & Hb1 & Hc1).
  destruct (trimEnd_split (trimStart raw)) as (ws2 & Heq2 & Hb2 & Hc2).
  exists ws1, ws2. unfold trim. split_and!; [|done|done| |done].
  - by rewrite <- Heq2.
  - by apply trimEnd_prefix_clean.
Qed.

(** The trimmed content is unique. *)
Lemma trimmedOf_trim (raw content : jsstring) :
  trimmedOf raw content -> content = trim raw.
Proof.
  intros (ws1 & ws2 & -> & Hb1 & Hb2 & Hc1 & Hc2). unfold trim.
  rewrite trimStart_app_blank by done.
  destruct content as [|c t].
  - simpl. rewrite trimStart_blank by done. done.
  - rewrite trimStart_clean by done.
    rewrite trimEnd_app_blank by done. by rewrite trimEnd_clean.
Qed.

Lemma trim_blank (raw : jsstring) : blank raw ↔ trim raw = [].
Proof.
  split.
  - intros Hb. unfold trim. by rewrite trimStart_blank.
  - intros Ht. destruct (trim_trimmedOf raw) as (ws1 & ws2 & Heq & Hb1 & Hb2 & _).
    rewrite Ht in Heq. rewrite Heq. simpl. by apply Forall_app.
Qed.

(** ** Splitting and joining lines *)

Lemma split_not_nil (sep : N) (s : jsstring) : split sep s ≠ [].
Proof.
  destruct s as [|c t]; simpl; [done|].
  case_decide; [done|]. by destruct (split sep t).
Qed.

Lemma split_no_sep (sep : N) (s : jsstring) : sep ∉ s -> split sep s = [s].
Proof.
  induction s as [|c t IH]; simpl; [done|].
  intros [Hc Ht]%not_elem_of_cons. case_decide; [congruence|].
  by rewrite IH.
Qed.

Lemma split_app_sep (sep : N) (x r : jsstring) :
  sep ∉ x -> split sep (x ++ sep :: r) = x :: split sep r.
Proof.
  induction x as [|c t IH]; simpl.
  - intros _. by case_decide.
  - intros [Hc Ht]%not_elem_of_cons. case_decide; [congruence|].
    by rewrite IH.
Qed.

(** Lines that hold no line break are recovered from their join. *)
Lemma split_join (sep : N) (lines : list jsstring) :
  lines ≠ [] -> Forall (fun line => sep ∉ line) lines ->
  split sep (join [sep] lines) = lines.
Proof.
  intros Hne Hall. induction Hall as [|x t Hx Ht IH]; [done|].
  destruct t as [|y t'].
  - simpl. by apply split_no_sep.
  - change (join [sep] (x :: y :: t')) with (x ++ sep :: join [sep] (y :: t')).
    rewrite split_app_sep by done. by rewrite IH.
Qed.

Lemma find_none {A} (p : A -> bool) (a : list A) :
  (∀ x, x ∈ a -> p x = false) -> find p a = None.
Proof.
  induction a as [|y t IH]; simpl; [done|]. intros Hall.
  rewrite (Hall y) by constructor. apply IH. intros x Hx. apply Hall. by constructor.
Qed.

Section RendererProperties.
Context `{NodeRuntime}.

(** C3: for a readable file that is not the report itself, whose text
    without leading and trailing white space is [content]: the content is
    empty exactly when the file is all white space, and then the renderer
    returns the empty string; otherwise it returns the block made of the
    relative path in square brackets, the content and a line of three dots. *)
Theorem getFileContentWithStructure_block
    (files : FileSystem) (filePath raw content : jsstring) :
  path_relative __dirname filePath ≠ js "output.md" ->
  readFile files filePath = Returns raw ->
  trimmedOf raw content ->
  (content = [] ↔ blank raw)
  ∧ (content = [] -> getFileContentWithStructure files filePath = Returns [])
  ∧ (content ≠ [] ->
     getFileContentWithStructure files filePath
     = Returns (fileBlock (path_relative __dirname filePath) content)).
Proof.
  intros Hrel Hread ->%trimmedOf_trim.
  unfold getFileContentWithStructure. rewrite bool_decide_eq_false_2 by done.
  rewrite Hread. simpl. split_and!.
  - symmetry. apply trim_blank.
  - intros ->. done.
  - intros Hne. rewrite bool_decide_eq_false_2; [done|].
    intros Hlen. by apply nil_length_inv in Hlen.
Qed.

(** C10: a runtime error whose lines after the first hold no "at " gives
    the entry "- <first line, trimmed>", a line break, two spaces and the
    text "undefined". *)
Theorem summaryRuntimeError_without_frame
    (error line0 : jsstring) (later : list jsstring) :
  error = join nl (line0 :: later) ->
  Forall (fun line => LF ∉ line) (line0 :: later) ->
  (∀ line, line ∈ later -> ¬ occursIn (js "at ") line) ->
  summaryRuntimeError error
  = Returns (js "- " ++ trim line0 ++ nl ++ js "  " ++ js "undefined").
Proof.
  intros -> Hlines Hno.
  assert (split LF (join nl (line0 :: later)) = line0 :: later) as Hsplit
    by (by apply (split_join LF)).
  unfold summaryRuntimeError. cbv zeta. rewrite Hsplit.
  change ((line0 :: later) !! 0) with (Some line0).
  change (sliceFrom 1 (line0 :: later)) with later. cbv beta iota.
  rewrite find_none; [done|]. intros line Hin.
  destruct (includes line (js "at ")) eqn:Hinc; [|done].
  apply includes_occursIn in Hinc. by apply Hno in Hinc.
Qed.

(** The callback never throws: [split] always yields a first line. *)
Lemma summaryRuntimeError_returns (error : jsstring) :
  ∃ entry, summaryRuntimeError error = Returns entry.
Proof.
  unfold summaryRuntimeError. pose proof (split_not_nil LF error) as Hne.
  destruct (split LF error) as [|line0 rest]; [done|]. simpl. eauto.
Qed.

End RendererProperties.

(** ** Report assembler *)

Lemma cappedSection_renderEntries (errors : list jsstring) (sentinel : jsstring) :
  cappedSection errors sentinel = renderEntries (take 5 errors) sentinel.
Proof. by destruct errors. Qed.

Lemma fullSection_renderEntries (errors : list jsstring) (sentinel : jsstring) :
  fullSection errors sentinel = renderEntries errors sentinel.
Proof. by destruct errors. Qed.

(** The lines of a rendered section are its entries. *)
Lemma renderEntries_lines (entries : list jsstring) (sentinel : jsstring) :
  entries ≠ [] -> Forall (fun entry => LF ∉ entry) entries ->
  split LF (renderEntries entries sentinel) = entries.
Proof.
  intros Hne Hall. destruct entries as [|e t]; [done|].
  by apply (split_join LF).
Qed.

Section AssemblerProperties.
Context `{NodeRuntime}.

Lemma generateOutput_layout (files : FileSystem)
    (codeFiles runtimeErrors buildErrors eslintErrors typescriptErrors : list jsstring)
    (summary projectName : jsstring) :
  obind (getProjectName files) ToString = Returns projectName ->
  ∃ front,
    generateOutput files codeFiles runtimeErrors buildErrors eslintErrors
      typescriptErrors summary
    = Returns (front ++ diagnosticSections (take 5 runtimeErrors) (take 5 buildErrors)
                          (take 5 eslintErrors) typescriptErrors).
Proof.
  intros Hname. unfold generateOutput. rewrite Hname. simpl.
  exists (overviewText ++ summary ++ js "

# Project: " ++ projectName ++ js "

## Code Files

" ++ join nl (spreadSet codeFiles) ++ js "

").
  rewrite !cappedSection_renderEntries, fullSection_renderEntries.
  unfold diagnosticSections. rewrite <- !app_assoc. reflexivity.
Qed.

(** With no lint entry the ESLint section is its sentinel, between the
    section before it and the TypeScript heading. *)
Lemma diagnosticSections_no_lint (runtime build typecheck : list jsstring) :
  ∃ before after,
    diagnosticSections runtime build [] typecheck
    = before ++ js "## ESLint Errors

No ESLint errors found.

## TypeScript Errors

" ++ after.
Proof.
  exists (js "## Runtime Errors

" ++ renderEntries runtime (js "No runtime errors found.") ++ js "

## Build Errors

" ++ renderEntries build (js "No build errors found.") ++ js "

"), (renderEntries typecheck (js "No TypeScript errors found.") ++ nl).
  unfold diagnosticSections. rewrite <- !app_assoc. reflexivity.
Qed.

(** C2: the report ends with the four diagnostic sections; the runtime,
    build and ESLint sections show the first five entries of their lists
    and nothing of the rest, the TypeScript section shows its whole list.
    When no entry holds a line break, the lines of the ESLint section are
    exactly the first five lint entries and the lines of the TypeScript
    section are all the type-check entries. *)
Theorem generateOutput_diagnostic_caps (files : FileSystem)
    (codeFiles runtimeErrors buildErrors eslintErrors typescriptErrors : list jsstring)
    (summary output : jsstring) :
  generateOutput files codeFiles runtimeErrors buildErrors eslintErrors
    typescriptErrors summary = Returns output ->
  (∃ front,
     output = front ++ diagnosticSections (take 5 runtimeErrors) (take 5 buildErrors)
                         (take 5 eslintErrors) typescriptErrors)
  ∧ length (take 5 runtimeErrors) ≤ 5
  ∧ length (take 5 buildErrors) ≤ 5
  ∧ length (take 5 eslintErrors) ≤ 5
  ∧ (eslintErrors ≠ [] -> Forall (fun entry => LF ∉ entry) eslintErrors ->
     split LF (cappedSection eslintErrors (js "No ESLint errors found."))
     = take 5 eslintErrors)
  ∧ (typescriptErrors ≠ [] -> Forall (fun entry => LF ∉ entry) typescriptErrors ->
     split LF (fullSection typescriptErrors (js "No TypeScript errors found."))
     = typescriptErrors).
Proof.
  intros Hout. split_and!.
  - unfold generateOutput in Hout.
    destruct (obind (getProjectName files) ToString) as [projectName|e] eqn:Hname;
      [|discriminate].
    destruct (generateOutput_layout files codeFiles runtimeErrors buildErrors
                eslintErrors typescriptErrors summary projectName Hname)
      as [front Hfront].
    exists front. unfold generateOutput in Hfront. rewrite Hname in Hfront.
    rewrite Hout in Hfront. by injection Hfront.
  - rewrite length_take. lia.
  - rewrite length_take. lia.
  - rewrite length_take. lia.
  - intros Hne Hall. rewrite cappedSection_renderEntries.
    apply renderEntries_lines.
    + by destruct eslintErrors.
    + by apply Forall_take.
  - intros Hne Hall. rewrite fullSection_renderEntries.
    by apply renderEntries_lines.
Qed.

End AssemblerProperties.

(** Eight lint entries and eight type-check entries: the report shows the
    lint entries 1 to 5 and the type-check entries 1 to 8. *)
Lemma generateOutput_diagnostic_caps_witness :
  (∃ front,
     demoReport = front ++ diagnosticSections [] []
       (js <$> ["lint 1"; "lint 2"; "lint 3"; "lint 4"; "lint 5"]%string)
       (js <$> ["type 1"; "type 2"; "type 3"; "type 4"; "type 5"; "type 6";
                "type 7"; "type 8"]%string))
  ∧ split LF (cappedSection (eight "lint ") (js "No ESLint errors found."))
    = js <$> ["lint 1"; "lint 2"; "lint 3"; "lint 4"; "lint 5"]%string
  ∧ split LF (fullSection (eight "type ") (js "No TypeScript errors found."))
    = eight "type ".
Proof.
  destruct (@generateOutput_diagnostic_caps demoRuntime demoFiles [] [] []
              (eight "lint ") (eight "type ") (js "summary") demoReport)
    as (Hfront & _ & _ & _ & Hlint & Htype).
  - vm_compute. reflexivity.
  - split_and!.
    + exact Hfront.
    + apply Hlint; [discriminate|]. apply (bool_decide_unpack _). by vm_compute.
    + apply Htype; [discriminate|]. apply (bool_decide_unpack _). by vm_compute.
Defined.

(** Every string is the join of its lines, and no line holds a line break:
    every runtime error is the join of a first line and later lines. *)
Lemma join_split (sep : N) (s : jsstring) :
  join [sep] (split sep s) = s ∧ Forall (fun line => sep ∉ line) (split sep s).
Proof.
  induction s as [|c t [IHj IHf]]; simpl.
  - split; [done|]. repeat constructor. apply not_elem_of_nil.
  - pose proof (split_not_nil sep t) as Hne. case_decide as Hc.
    + subst c. split.
      * destruct (split sep t) as [|seg segs]; [done|]. simpl in *. by rewrite IHj.
      * constructor; [apply not_elem_of_nil|done].
    + destruct (split sep t) as [|seg segs]; [done|]. split.
      * rewrite <- IHj. by destruct segs.
      * inversion IHf as [|? ? Hseg Hsegs]; subst. constructor; [|done].
        apply not_elem_of_cons. split; [congruence|done].
Qed.

(** The file [a.js] renders as its block; the file of white space renders
    as the empty string. *)
Lemma getFileContentWithStructure_block_witness :
  @getFileContentWithStructure demoRuntime demoFiles (js "/proj/a.js")
  = Returns (js "[a.js]" ++ nl ++ js "const x=1;" ++ nl ++ js "..." ++ nl)
  ∧ @getFileContentWithStructure demoRuntime demoFiles (js "/proj/blank.js")
    = Returns [].
Proof.
  split.
  - apply (@getFileContentWithStructure_block demoRuntime demoFiles
             (js "/proj/a.js") (js "const x=1;" ++ nl) (js "const x=1;")).
    + vm_compute. discriminate.
    + vm_compute. reflexivity.
    + exists [], nl. split_and!; [reflexivity|constructor|by repeat constructor
                                  |reflexivity|reflexivity].
    + vm_compute. discriminate.
  - apply (@getFileContentWithStructure_block demoRuntime demoFiles
             (js "/proj/blank.js") (js "  " ++ nl ++ js " ") []).
    + vm_compute. discriminate.
    + vm_compute. reflexivity.
    + exists (js "  " ++ nl ++ js " "), []. split_and!;
        [reflexivity|by repeat constructor|constructor|exact I|exact I].
    + reflexivity.
Defined.

(** An error of two lines without a stack frame. *)
Lemma summaryRuntimeError_without_frame_witness :
  @summaryRuntimeError
    (js "Error: boom " ++ nl ++ js "    in component")
  = Returns (js "- Error: boom" ++ nl ++ js "  undefined").
Proof.
  apply (summaryRuntimeError_without_frame _ (js "Error: boom ")
           [js "    in component"]).
  - reflexivity.
  - apply (bool_decide_unpack _). by vm_compute.
  - intros line ->%list_elem_of_singleton Hocc%includes_occursIn.
    vm_compute in Hocc. discriminate.
Defined.

Lemma mapThrowing_length {A B} (f : A -> outcome B) (a : list A) (b : list B) :
  mapThrowing f a = Returns b -> length b = length a.
Proof.
  revert b. induction a as [|x t IH]; simpl; intros b Hb.
  - by injection Hb as <-.
  - destruct (f x) as [y|e]; [|discriminate]. simpl in Hb.
    destruct (mapThrowing f t) as [ys|e]; [|discriminate]. simpl in Hb.
    injection Hb as <-. simpl. by rewrite (IH ys).
Qed.

Lemma mapThrowing_returns {A B} (f : A -> outcome B) (a : list A) :
  (∀ x, ∃ y, f x = Returns y) -> ∃ b, mapThrowing f a = Returns b.
Proof.
  intros Hf. induction a as [|x t [ys IH]]; simpl; [eauto|].
  destruct (Hf x) as [y ->]. rewrite IH. simpl. eauto.
Qed.

Section PurityProperties.
Context `{NodeRuntime}.

(** C8, as amended: the report is a function of the six arguments and of
    the project name read from [package.json]; on two file systems that
    give the same project name, the same arguments give the same report. *)
Theorem generateOutput_same_project_name (files1 files2 : FileSystem)
    (codeFiles runtimeErrors buildErrors eslintErrors typescriptErrors : list jsstring)
    (summary : jsstring) :
  obind (getProjectName files1) ToString = obind (getProjectName files2) ToString ->
  generateOutput files1 codeFiles runtimeErrors buildErrors eslintErrors
    typescriptErrors summary
  = generateOutput files2 codeFiles runtimeErrors buildErrors eslintErrors
      typescriptErrors summary.
Proof. intros Hname. unfold generateOutput. by rewrite Hname. Qed.

End PurityProperties.

(** Two projects with the same [package.json] and different trees. *)
Lemma generateOutput_same_project_name_witness :
  @generateOutput demoRuntime demoFiles [js "block"] [] [] [] [] (js "summary")
  = @generateOutput demoRuntime demoFilesNoBlank [js "block"] [] [] [] [] (js "summary").
Proof.
  apply (@generateOutput_same_project_name demoRuntime). reflexivity.
Defined.

(** C8, as stated, fails: the same six arguments give two reports when
    [package.json] names the project in one call and is absent in the other. *)
Lemma generateOutput_reads_package_json :
  @generateOutput demoRuntime demoFiles [] [] [] [] [] []
  ≠ @generateOutput demoRuntime demoFilesNoPackage [] [] [] [] [] [].
Proof. vm_compute. discriminate. Qed.

(** C5: the caller keeps the empty string the renderer returns for
    [blank.js]: the list of blocks holds it between the blocks of [a.js] and
    [src/app.js], the Code Files text gets a line it would not have without
    the file, and the report differs from the report of the same blocks with
    the empty one dropped. *)
Theorem empty_block_is_appended :
  @getFilePaths demoRuntime (excludeFiles demoFiles) (js "/proj")
    (projectTree demoFiles) []
  = Returns [js "/proj/a.js"; js "/proj/blank.js"; js "/proj/src/app.js"]
  ∧ mapThrowing (@getFileContentWithStructure demoRuntime demoFiles)
      [js "/proj/a.js"; js "/proj/blank.js"; js "/proj/src/app.js"]
    = Returns [fileBlock (js "a.js") (js "const x=1;"); [];
               fileBlock (js "src/app.js") (js "let y;")]
  ∧ join nl (spreadSet [fileBlock (js "a.js") (js "const x=1;"); [];
                        fileBlock (js "src/app.js") (js "let y;")])
    = fileBlock (js "a.js") (js "const x=1;") ++ nl ++ nl
      ++ fileBlock (js "src/app.js") (js "let y;")
  ∧ @generateOutput demoRuntime demoFiles
      [fileBlock (js "a.js") (js "const x=1;"); [];
       fileBlock (js "src/app.js") (js "let y;")] [] [] [] [] []
    ≠ @generateOutput demoRuntime demoFiles
        [fileBlock (js "a.js") (js "const x=1;");
         fileBlock (js "src/app.js") (js "let y;")] [] [] [] [] [].
Proof.
  split_and!; [vm_compute; reflexivity..|vm_compute; discriminate].
Qed.

(** ** Orchestrator *)

Lemma generateOutput_throws (H : NodeRuntime) (files : FileSystem)
    (codeFiles runtimeErrors buildErrors eslintErrors typescriptErrors : list jsstring)
    (summary : jsstring) (e : Exn) :
  obind (getProjectName files) ToString = Throws e ->
  generateOutput files codeFiles runtimeErrors buildErrors eslintErrors
    typescriptErrors summary = Throws e.
Proof. intros Hname. unfold generateOutput. by rewrite Hname. Qed.

Section OrchestratorProperties.
Context `{NodeRuntime}.


(** C4: when [JSON.parse] rejects the linter output, [parseESLintOutput]
    returns the empty list and logs the failure without throwing; a run whose
    linter printed that output, and whose steps outside the [try] blocks
    answer, completes: it writes a report whose ESLint section is the
    sentinel "No ESLint errors found.", and closes the session. *)
Theorem malformed_lint_output_not_fatal (env : Env) (lintOutput : jsstring) (w : World) :
  JSON_parse lintOutput = None ->
  parseESLintOutput lintOutput w
  = (Returns [],
     {| browserOpen := browserOpen w;
        stderr := stderr w ++ [(js "Failed to parse ESLint output:", SyntaxError)];
        stdout := stdout w; outputFile := outputFile w; clipboard := clipboard w |})
  ∧ (eslintRun env = Returns lintOutput ->
     unguardedStepsSucceed env ->
     ∃ report front back,
       (main env initialWorld).1 = Returns tt
       ∧ outputFile (main env initialWorld).2 = Some report
       ∧ report = front ++ js "## ESLint Errors

No ESLint errors found.

## TypeScript Errors

" ++ back
       ∧ (js "Failed to parse ESLint output:", SyntaxError)
           ∈ stderr (main env initialWorld).2
       ∧ browserOpen (main env initialWorld).2 = false).
Proof.
  intros Hparse. split.
  - unfold parseESLintOutput, parseESLintBody. rewrite Hparse. reflexivity.
  - intros Hlint (Hlaunch & Hpage & Hinject & Hgoto & Hwait & [runtimeErrors Hcaptured]
                  & Hclear & (filePaths & codeFiles & Hpaths & Hblocks)
                  & [projectName Hname] & Hwrite & Hclip & Hclose).
    destruct (mapThrowing_returns summaryRuntimeError runtimeErrors
                summaryRuntimeError_returns) as [summaryRuntimeErrors Hsummary].
    assert (∀ buildErrors typescriptErrors, ∃ front back,
              generateOutput (fs env) codeFiles summaryRuntimeErrors buildErrors []
                typescriptErrors
                (summaryText filePaths codeFiles summaryRuntimeErrors buildErrors []
                   typescriptErrors)
              = Returns (front ++ js "## ESLint Errors

No ESLint errors found.

## TypeScript Errors

" ++ back)) as Hreport.
    { intros buildErrors typescriptErrors.
      destruct (generateOutput_layout (fs env) codeFiles summaryRuntimeErrors
                  buildErrors [] typescriptErrors
                  (summaryText filePaths codeFiles summaryRuntimeErrors buildErrors []
                     typescriptErrors) projectName Hname) as [front Hfront].
      destruct (diagnosticSections_no_lint (take 5 summaryRuntimeErrors)
                  (take 5 buildErrors) typescriptErrors) as (before & after & Hsec).
      exists (front ++ before), after. rewrite Hfront.
      change (take 5 []) with (@nil jsstring). rewrite Hsec.
      by rewrite <- app_assoc. }
    unfold main, initialWorld. run_step.
    rewrite Hlaunch, Hpage, Hinject, Hgoto, Hwait, Hcaptured. run_step.
    rewrite Hsummary. run_step.
    case_outcome (errorOverlay env);
    (rewrite Hlint; run_step; unfold parseESLintBody; rewrite Hparse; run_step);
    case_outcome (tscRun env);
    (rewrite Hclear, Hpaths; run_step; rewrite Hblocks; run_step);
    (match goal with |- context [generateOutput ?f ?c ?r ?b ?l ?t ?s] =>
       destruct (Hreport b t) as (front & back & ->) end);
    run_step; rewrite Hwrite, Hclip, Hclose; run_step;
    (exists (front ++ js "## ESLint Errors

No ESLint errors found.

## TypeScript Errors

" ++ back), front, back);
    (split_and!; [reflexivity|reflexivity|reflexivity| |reflexivity]);
    rewrite ?elem_of_app, !list_elem_of_singleton; auto.
Qed.




End OrchestratorProperties.

(** The linter prints text that is no JSON; all other steps answer. *)
Lemma malformed_lint_output_not_fatal_witness :
  @parseESLintOutput demoRuntime (js "Oops! Something went wrong!") initialWorld
  = (Returns [],
     {| browserOpen := false;
        stderr := [(js "Failed to parse ESLint output:", SyntaxError)];
        stdout := []; outputFile := None; clipboard := None |})
  ∧ ∃ report front back,
      (@main demoRuntime (demoEnv (Returns tt) (js "Oops! Something went wrong!"))
         initialWorld).1 = Returns tt
      ∧ outputFile (@main demoRuntime
                      (demoEnv (Returns tt) (js "Oops! Something went wrong!"))
                      initialWorld).2 = Some report
      ∧ report = front ++ js "## ESLint Errors

No ESLint errors found.

## TypeScript Errors

" ++ back
      ∧ (js "Failed to parse ESLint output:", SyntaxError)
          ∈ stderr (@main demoRuntime
                      (demoEnv (Returns tt) (js "Oops! Something went wrong!"))
                      initialWorld).2
      ∧ browserOpen (@main demoRuntime
                       (demoEnv (Returns tt) (js "Oops! Something went wrong!"))
                       initialWorld).2 = false.
Proof.
  destruct (@malformed_lint_output_not_fatal demoRuntime
              (demoEnv (Returns tt) (js "Oops! Something went wrong!"))
              (js "Oops! Something went wrong!") initialWorld) as [Hparse Hrun].
  - vm_compute. reflexivity.
  - split; [exact Hparse|]. apply Hrun; [reflexivity|].
    unfold unguardedStepsSucceed. split_and!; try reflexivity.
    + eexists. reflexivity.
    + eexists _, _. split; vm_compute; reflexivity.
    + eexists. vm_compute. reflexivity.
Defined.


(** * Further properties of the source *)

(** ** Ignore file and rule lists *)

(** X1: the rules read from an ignore file whose lines are [lines] are the
    lines that are not empty, in the order of the file. *)
Theorem readGitignore_nonempty_lines (files : FileSystem) (lines : list jsstring) :
  lines ≠ [] ->
  Forall (fun line => LF ∉ line) lines ->
  gitignore files = Some (join nl lines) ->
  readGitignore files = filter (fun line => line ≠ []) lines.
Proof.
  intros Hne Hall Hfile. unfold readGitignore. rewrite Hfile.
  change nl with [LF]. by rewrite split_join.
Qed.

Lemma readGitignore_nonempty_lines_witness :
  readGitignore demoFiles = [js "b.png"].
Proof.
  apply (readGitignore_nonempty_lines demoFiles [js "b.png"; []]).
  - discriminate.
  - apply (bool_decide_unpack _). by vm_compute.
  - reflexivity.
Defined.

(** X2: no rule read from the ignore file is empty or holds a line break,
    and without an ignore file there is no such rule at all. *)
Theorem readGitignore_rules_shape (files : FileSystem) :
  (∀ rule, rule ∈ readGitignore files -> rule ≠ [] ∧ LF ∉ rule)
  ∧ (gitignore files = None -> excludeFiles files = builtinExcludes).
Proof.
  split.
  - intros rule. unfold readGitignore. destruct (gitignore files) as [text|].
    + intros [Hne Hin]%list_elem_of_filter. split; [done|].
      destruct (join_split LF text) as [_ Hall].
      rewrite Forall_forall in Hall. by apply Hall.
    + by intros ?%elem_of_nil.
  - intros Hnone. unfold excludeFiles, readGitignore. by rewrite Hnone.
Qed.

Section RuleListProperties.
Context `{NodeRuntime}.

(** X3: the rules of the ignore file and the built-in rules combine by
    conjunction: a file is included exactly when both lists include it, so
    no line of the ignore file can bring back a file the built-in rules
    exclude. *)
Theorem excludeFiles_conjunction (files : FileSystem) (P : jsstring) :
  shouldIncludeFile (excludeFiles files) P
  = shouldIncludeFile (readGitignore files) P && shouldIncludeFile builtinExcludes P.
Proof.
  unfold shouldIncludeFile, excludeFiles. rewrite some_app. apply negb_orb.
Qed.

(** X4: the answer depends on the set of rules only: two lists with the
    same rules, in any order and with any repetitions, decide every path
    alike. *)
Theorem shouldIncludeFile_same_rules (R1 R2 : list jsstring) (P : jsstring) :
  (∀ rule, rule ∈ R1 ↔ rule ∈ R2) ->
  shouldIncludeFile R1 P = shouldIncludeFile R2 P.
Proof.
  intros Hsame. unfold shouldIncludeFile. f_equal.
  apply eq_true_iff_eq. rewrite !some_exists.
  split; intros (rule & Hin & Hex); exists rule; (split; [by apply Hsame|done]).
Qed.

(** X5: a rule that is the single character "/" excludes every path: its
    fragment is empty and the empty string occurs in every path. *)
Theorem slash_rule_excludes_everything (R : list jsstring) (P : jsstring) :
  js "/" ∈ R -> shouldIncludeFile R P = false.
Proof.
  intros Hin. unfold shouldIncludeFile. apply negb_false_iff, some_exists.
  exists (js "/"). split; [done|].
  unfold excludedBy. change (startsWith (js "/") (js "*.")) with false.
  change (startsWith (js "/") (js "/")) with true. cbv iota.
  apply includes_occursIn. by exists [], P.
Qed.

End RuleListProperties.

Lemma shouldIncludeFile_same_rules_witness :
  @shouldIncludeFile demoRuntime [js "*.png"; js "a.js"; js "*.png"] (js "src/a.js")
  = @shouldIncludeFile demoRuntime [js "a.js"; js "*.png"] (js "src/a.js").
Proof.
  apply (@shouldIncludeFile_same_rules demoRuntime).
  intros rule. rewrite !elem_of_cons. tauto.
Defined.

Lemma slash_rule_excludes_everything_witness :
  @shouldIncludeFile demoRuntime [js "concat.js"; js "/"] (js "src/app.js") = false.
Proof.
  apply (@slash_rule_excludes_everything demoRuntime).
  apply list_elem_of_further, list_elem_of_here.
Defined.

(** ** Tree enumerator *)

(** Induction on a tree whose directories hold lists of entries. *)
Lemma FsNode_nested_ind (P : FsNode -> Prop) :
  P FsFile -> P FsBroken -> P FsUnreadable ->
  (∀ entries, Forall (fun entry => P entry.2) entries -> P (FsDir entries)) ->
  ∀ node, P node.
Proof.
  intros Hfile Hbroken Hunreadable Hdir.
  fix IH 1. intros [|entries| |]; [exact Hfile| |exact Hbroken|exact Hunreadable].
  apply Hdir. induction entries as [|[file child] rest IHrest]; constructor.
  - apply IH.
  - exact IHrest.
Qed.

Section EnumeratorProperties.
Context `{NodeRuntime}.

(** A directory entry is walked by [getFilePaths] itself. *)
Lemma visitEntry_dir (R : list jsstring) (entries : list (jsstring * FsNode))
    (dirPath filePath : jsstring) (acc : list jsstring) :
  filePath ≠ dirPath ->
  visitEntry R (FsDir entries) dirPath filePath acc = getFilePaths R filePath entries acc.
Proof.
  intros Hne. simpl. rewrite bool_decide_eq_true_2 by done.
  revert acc. induction entries as [|[file child] rest IH]; intros acc; [done|].
  simpl. destruct (visitEntry R child filePath (path_join filePath file) acc); simpl; [|done].
  apply IH.
Qed.

Lemma visitEntry_not_dir (R : list jsstring) (node : FsNode)
    (dirPath filePath : jsstring) (acc : list jsstring) :
  node = FsFile ∨ (∃ entries, node = FsDir entries ∧ filePath = dirPath) ->
  visitEntry R node dirPath filePath acc
  = Returns (if shouldIncludeFile R filePath then acc ++ [filePath] else acc).
Proof.
  intros [->|(entries & -> & ->)]; simpl.
  - by destruct (shouldIncludeFile R filePath).
  - rewrite bool_decide_eq_false_2 by (intros Hne; by apply Hne).
    by destruct (shouldIncludeFile R dirPath).
Qed.

(** An unreadable directory throws when it is entered; when its joined
    path is the directory path it is tested like a file. *)
Lemma visitEntry_unreadable (R : list jsstring) (dirPath filePath : jsstring)
    (acc : list jsstring) :
  visitEntry R FsUnreadable dirPath filePath acc
  = if bool_decide (filePath ≠ dirPath) then Throws (IOError "readdirSync")
    else Returns (if shouldIncludeFile R filePath then acc ++ [filePath] else acc).
Proof. simpl. case_bool_decide; [done|]. by destruct (shouldIncludeFile R filePath). Qed.

Lemma getFilePaths_cons (R : list jsstring) (dirPath file : jsstring) (node : FsNode)
    (rest : list (jsstring * FsNode)) (acc : list jsstring) :
  getFilePaths R dirPath ((file, node) :: rest) acc
  = obind (visitEntry R node dirPath (path_join dirPath file) acc)
          (getFilePaths R dirPath rest).
Proof. reflexivity. Qed.

(** X6: whatever [getFilePaths] returns is the array it was given followed
    by paths that [shouldIncludeFile] accepts: nothing is removed from the
    array and no excluded path is ever added. *)
Theorem getFilePaths_adds_included_only (R : list jsstring) (dirPath : jsstring)
    (files : list (jsstring * FsNode)) (arrayOfFiles result : list jsstring) :
  getFilePaths R dirPath files arrayOfFiles = Returns result ->
  ∃ added, result = arrayOfFiles ++ added
           ∧ Forall (fun p => shouldIncludeFile R p = true) added.
Proof.
  assert (∀ node dirPath filePath acc out,
            visitEntry R node dirPath filePath acc = Returns out ->
            ∃ added, out = acc ++ added
                     ∧ Forall (fun p => shouldIncludeFile R p = true) added) as Hnode.
  { induction node as [| | |entries IH] using FsNode_nested_ind;
      intros dir filePath acc out Hout.
    - rewrite visitEntry_not_dir in Hout by auto. injection Hout as <-.
      destruct (shouldIncludeFile R filePath) eqn:Hinc.
      + exists [filePath]. split; [done|]. by repeat constructor.
      + exists []. split; [by rewrite app_nil_r|constructor].
    - discriminate Hout.
    - rewrite visitEntry_unreadable in Hout. case_bool_decide; [discriminate|].
      injection Hout as <-. destruct (shouldIncludeFile R filePath) eqn:Hinc.
      + exists [filePath]. split; [done|]. by repeat constructor.
      + exists []. split; [by rewrite app_nil_r|constructor].
    - destruct (decide (filePath = dir)) as [->|Hne].
      + rewrite visitEntry_not_dir in Hout by eauto. injection Hout as <-.
        destruct (shouldIncludeFile R dir) eqn:Hinc.
        * exists [dir]. split; [done|]. by repeat constructor.
        * exists []. split; [by rewrite app_nil_r|constructor].
      + rewrite visitEntry_dir in Hout by done.
        revert acc out Hout.
        induction IH as [|[file child] rest Hchild _ IHrest]; intros acc out Hout.
        * injection Hout as <-. exists []. split; [by rewrite app_nil_r|constructor].
        * rewrite getFilePaths_cons in Hout.
          destruct (visitEntry R child filePath (path_join filePath file) acc)
            as [mid|e] eqn:Hvisit; [|discriminate].
          simpl in Hout.
          destruct (Hchild _ _ _ _ Hvisit) as (added1 & -> & Hall1).
          destruct (IHrest _ _ Hout) as (added2 & -> & Hall2).
          exists (added1 ++ added2). split; [by rewrite app_assoc|by apply Forall_app]. }
  revert arrayOfFiles result.
  induction files as [|[file node] rest IH]; intros acc out Hout.
  - injection Hout as <-. exists []. split; [by rewrite app_nil_r|constructor].
  - rewrite getFilePaths_cons in Hout.
    destruct (visitEntry R node dirPath (path_join dirPath file) acc)
      as [mid|e] eqn:Hvisit; [|discriminate].
    simpl in Hout.
    destruct (Hnode _ _ _ _ _ Hvisit) as (added1 & -> & Hall1).
    destruct (IH _ _ Hout) as (added2 & -> & Hall2).
    exists (added1 ++ added2). split; [by rewrite app_assoc|by apply Forall_app].
Qed.

Lemma nodePaths_dir (entries : list (jsstring * FsNode)) (filePath : jsstring) :
  nodePaths (FsDir entries) filePath = entryPaths filePath entries.
Proof.
  simpl. induction entries as [|[file child] rest IH]; [done|]. simpl. by rewrite IH.
Qed.

Lemma regularNode_dir (entries : list (jsstring * FsNode)) (dirPath filePath : jsstring) :
  regularNode (FsDir entries) dirPath filePath
  ↔ filePath ≠ dirPath ∧ regularEntries filePath entries.
Proof.
  simpl. apply and_iff_compat_l.
  induction entries as [|[file child] rest IH]; [done|]. simpl. by rewrite IH.
Qed.

Lemma readableNode_dir (entries : list (jsstring * FsNode)) :
  readableNode (FsDir entries) ↔ Forall (fun entry => readableNode entry.2) entries.
Proof.
  simpl. induction entries as [|[file child] rest IH].
  - split; [constructor|done].
  - rewrite Forall_cons. simpl. by rewrite IH.
Qed.

Lemma meetsBroken_dir (entries : list (jsstring * FsNode)) (dirPath filePath : jsstring) :
  meetsBroken (FsDir entries) dirPath filePath
  ↔ filePath ≠ dirPath ∧ entriesMeetBroken filePath entries.
Proof.
  simpl. apply and_iff_compat_l.
  induction entries as [|[file child] rest IH]; [done|]. simpl. by rewrite IH.
Qed.

Lemma visitEntry_regular (R : list jsstring) (node : FsNode) :
  ∀ dirPath filePath acc,
    regularNode node dirPath filePath ->
    visitEntry R node dirPath filePath acc
    = Returns (acc ++ filter (fun p => shouldIncludeFile R p = true)
                        (nodePaths node filePath)).
Proof.
  induction node as [| | |entries IH] using FsNode_nested_ind;
    intros dirPath filePath acc Hreg.
  - rewrite visitEntry_not_dir by auto. simpl. rewrite filter_cons, filter_nil.
    destruct (shouldIncludeFile R filePath); simpl; [done|by rewrite app_nil_r].
  - destruct Hreg.
  - destruct Hreg.
  - apply regularNode_dir in Hreg as [Hne Hreg].
    rewrite visitEntry_dir by done. rewrite nodePaths_dir.
    revert acc Hreg.
    induction IH as [|[file child] rest Hchild _ IHrest]; intros acc Hreg.
    + simpl. by rewrite filter_nil, app_nil_r.
    + destruct Hreg as [Hreg1 Hreg2]. rewrite getFilePaths_cons.
      rewrite (Hchild _ _ _ Hreg1). simpl.
      rewrite (IHrest _ Hreg2). by rewrite filter_app, app_assoc.
Qed.

(** X7: for a directory whose listing [readdirSync] returned, and below
    which [statSync] and [readdirSync] answer everywhere and no joined path
    equals its directory, [getFilePaths] returns the array it was given
    followed by the paths of all entries that are not directories, depth
    first in listing order, filtered by [shouldIncludeFile]: directories
    are always entered, whatever the rules say, and only files are tested. *)
Theorem getFilePaths_listing (R : list jsstring) (dirPath : jsstring)
    (files : list (jsstring * FsNode)) (arrayOfFiles : list jsstring) :
  regularEntries dirPath files ->
  getFilePaths R dirPath files arrayOfFiles
  = Returns (arrayOfFiles ++ filter (fun p => shouldIncludeFile R p = true)
                               (entryPaths dirPath files)).
Proof.
  revert arrayOfFiles.
  induction files as [|[file node] rest IH]; intros acc Hreg.
  - simpl. by rewrite filter_nil, app_nil_r.
  - destruct Hreg as [Hreg1 Hreg2]. rewrite getFilePaths_cons.
    rewrite (visitEntry_regular R node _ _ _ Hreg1). simpl.
    rewrite (IH _ Hreg2). by rewrite filter_app, app_assoc.
Qed.

(** Where every directory is readable, the walk throws nothing but the
    error of [statSync]. *)
Lemma visitEntry_throws_statSync (R : list jsstring) (node : FsNode) :
  ∀ dirPath filePath acc e,
    readableNode node ->
    visitEntry R node dirPath filePath acc = Throws e -> e = IOError "statSync".
Proof.
  induction node as [| | |entries IH] using FsNode_nested_ind;
    intros dirPath filePath acc e Hreadable Hthrow.
  - rewrite visitEntry_not_dir in Hthrow by auto. discriminate.
  - simpl in Hthrow. congruence.
  - destruct Hreadable.
  - destruct (decide (filePath = dirPath)) as [->|Hne].
    + rewrite visitEntry_not_dir in Hthrow by eauto. discriminate.
    + rewrite visitEntry_dir in Hthrow by done.
      apply readableNode_dir in Hreadable. revert acc Hthrow.
      induction IH as [|[file child] rest Hchild _ IHrest]; intros acc Hthrow.
      * discriminate.
      * apply Forall_cons in Hreadable as [Hreadable1 Hreadable2].
        rewrite getFilePaths_cons in Hthrow.
        destruct (visitEntry R child filePath (path_join filePath file) acc)
          as [mid|e'] eqn:Hvisit; simpl in Hthrow.
        -- by apply (IHrest Hreadable2 mid).
        -- injection Hthrow as <-. by apply (Hchild _ _ _ _ Hreadable1 Hvisit).
Qed.

Lemma visitEntry_meetsBroken (R : list jsstring) (node : FsNode) :
  ∀ dirPath filePath acc,
    meetsBroken node dirPath filePath ->
    visitEntry R node dirPath filePath acc = Throws (IOError "statSync").
Proof.
  induction node as [| | |entries IH] using FsNode_nested_ind;
    intros dirPath filePath acc Hmeet.
  - destruct Hmeet.
  - reflexivity.
  - destruct Hmeet.
  - apply meetsBroken_dir in Hmeet as [Hne Hmeet].
    rewrite visitEntry_dir by done. revert acc Hmeet.
    induction IH as [|[file child] rest Hchild _ IHrest]; intros acc Hmeet.
    + destruct Hmeet.
    + rewrite getFilePaths_cons.
      destruct (visitEntry R child filePath (path_join filePath file) acc)
        as [mid|e] eqn:Hvisit; simpl.
      * destruct Hmeet as [Hmeet|[_ Hmeet]]; [|by apply IHrest].
        rewrite (Hchild _ _ _ Hmeet) in Hvisit. discriminate.
      * f_equal. destruct Hmeet as [Hmeet|[Hreadable _]].
        -- rewrite (Hchild _ _ _ Hmeet) in Hvisit. by injection Hvisit.
        -- by apply (visitEntry_throws_statSync R child _ _ _ _ Hreadable Hvisit).
Qed.

(** X8: when the walk reaches an entry on which [statSync] throws, the
    whole enumeration throws that error: no partial list is returned. *)
Theorem getFilePaths_broken_entry_is_fatal (R : list jsstring) (dirPath : jsstring)
    (files : list (jsstring * FsNode)) (arrayOfFiles : list jsstring) :
  entriesMeetBroken dirPath files ->
  getFilePaths R dirPath files arrayOfFiles = Throws (IOError "statSync").
Proof.
  revert arrayOfFiles.
  induction files as [|[file node] rest IH]; intros acc Hmeet.
  - destruct Hmeet.
  - rewrite getFilePaths_cons.
    destruct (visitEntry R node dirPath (path_join dirPath file) acc)
      as [mid|e] eqn:Hvisit; simpl.
    + destruct Hmeet as [Hmeet|[_ Hmeet]]; [|by apply IH].
      rewrite (visitEntry_meetsBroken R node _ _ _ Hmeet) in Hvisit. discriminate.
    + f_equal. destruct Hmeet as [Hmeet|[Hreadable _]].
      * rewrite (visitEntry_meetsBroken R node _ _ _ Hmeet) in Hvisit. by injection Hvisit.
      * by apply (visitEntry_throws_statSync R node _ _ _ _ Hreadable Hvisit).
Qed.

End EnumeratorProperties.

(** The files of the model project below "/proj", of which [b.png] is
    excluded by the ignore file and by the rule "*.png". *)
Lemma getFilePaths_adds_included_only_witness :
  ∃ added,
    [js "/proj/a.js"; js "/proj/blank.js"; js "/proj/src/app.js"] = [] ++ added
    ∧ Forall (fun p => @shouldIncludeFile demoRuntime (excludeFiles demoFiles) p = true)
        added.
Proof.
  apply (@getFilePaths_adds_included_only demoRuntime (excludeFiles demoFiles)
           (js "/proj") (projectTree demoFiles) []).
  vm_compute. reflexivity.
Defined.

Lemma getFilePaths_listing_witness :
  @entryPaths demoRuntime (js "/proj") (projectTree demoFiles)
  = [js "/proj/a.js"; js "/proj/b.png"; js "/proj/blank.js"; js "/proj/src/app.js"]
  ∧ @getFilePaths demoRuntime (excludeFiles demoFiles) (js "/proj")
      (projectTree demoFiles) []
    = Returns [js "/proj/a.js"; js "/proj/blank.js"; js "/proj/src/app.js"].
Proof.
  split; [vm_compute; reflexivity|].
  rewrite (@getFilePaths_listing demoRuntime).
  - vm_compute. reflexivity.
  - simpl. split_and!; try exact I; vm_compute; discriminate.
Defined.

(** A dangling link inside [src] makes the enumeration of the project throw. *)
Lemma getFilePaths_broken_entry_is_fatal_witness :
  @getFilePaths demoRuntime [] (js "/proj")
    [ (js "a.js", FsFile); (js "src", FsDir [ (js "link", FsBroken) ]) ] []
  = Throws (IOError "statSync").
Proof.
  apply (@getFilePaths_broken_entry_is_fatal demoRuntime).
  simpl. right. split; [exact I|]. left. split; [vm_compute; discriminate|].
  left. exact I.
Defined.

(** A directory that [statSync] accepts and [readdirSync] refuses makes the
    enumeration throw the error of [readdirSync], also after files were
    collected. *)
Lemma getFilePaths_unreadable_directory :
  @getFilePaths demoRuntime [] (js "/proj")
    [ (js "a.js", FsFile); (js "locked", FsUnreadable); (js "b.js", FsFile) ] []
  = Throws (IOError "readdirSync").
Proof. vm_compute. reflexivity. Qed.

(** ** Token count *)

Lemma splitTokens_count (text : jsstring) :
  ∀ mode piece,
    (mode ≠ InPiece -> piece = []) ->
    length (filter (fun token => 0 < length token) (splitTokens mode piece text))
    = countRuns (bool_decide (piece ≠ [])) text
      + (if bool_decide (piece ≠ []) then 1 else 0).
Proof.
  assert (∀ piece : jsstring,
            length (filter (fun token : jsstring => 0 < length token) [piece])
            = if bool_decide (piece ≠ []) then 1 else 0) as Hone.
  { intros [|c p]; reflexivity. }
  assert (∀ (piece : jsstring) rest,
            length (filter (fun token : jsstring => 0 < length token) (piece :: rest))
            = (if bool_decide (piece ≠ []) then 1 else 0)
              + length (filter (fun token : jsstring => 0 < length token) rest)) as Hcons.
  { intros [|c p] rest; reflexivity. }
  induction text as [|c t IH]; intros mode piece Hmode.
  - simpl. rewrite Hone. lia.
  - simpl. destruct (isWordChar c) eqn:Hword.
    + rewrite IH by done.
      rewrite (bool_decide_eq_true_2 (piece ++ [c] ≠ [])) by (by destruct piece).
      destruct (bool_decide (piece ≠ [])); lia.
    + assert (length (filter (fun token : jsstring => 0 < length token)
                        (match mode with
                         | InSpace => splitTokens InSpace [] t
                         | _ => piece :: splitTokens InSpace [] t
                         end))
              = countRuns false t + (if bool_decide (piece ≠ []) then 1 else 0)) as Hspace.
      { destruct mode; rewrite ?Hcons, IH by done; try (simpl; lia).
        rewrite (Hmode ltac:(done)). simpl. lia. }
      assert (length (filter (fun token : jsstring => 0 < length token)
                        (match mode with
                         | InOther => splitTokens InOther [] t
                         | _ => piece :: splitTokens InOther [] t
                         end))
              = countRuns false t + (if bool_decide (piece ≠ []) then 1 else 0)) as Hother.
      { destruct mode; rewrite ?Hcons, IH by done; try (simpl; lia).
        rewrite (Hmode ltac:(done)). simpl. lia. }
      by destruct (isWhiteSpace c).
Qed.

(** X9: [countTokens] is the number of pieces that are not empty among
    those the regular expression splits the text into. *)
Theorem countTokens_filteredTokens (text : jsstring) :
  countTokens text = length (filteredTokens text).
Proof.
  unfold countTokens, filteredTokens, tokens.
  rewrite splitTokens_count by done. simpl. lia.
Qed.

Lemma splitTokens_word_pieces (text : jsstring) :
  ∀ mode piece,
    Forall (fun c => isWordChar c = true) piece ->
    Forall (Forall (fun c => isWordChar c = true)) (splitTokens mode piece text).
Proof.
  induction text as [|c t IH]; intros mode piece Hpiece; simpl.
  - by repeat constructor.
  - destruct (isWordChar c) eqn:Hword.
    + apply IH. apply Forall_app. split; [done|by repeat constructor].
    + destruct (isWhiteSpace c), mode;
        repeat (first [apply IH; constructor | constructor; [done|]]).
Qed.

(** X10: every token that is counted is made of word characters only
    (letters, digits and the underscore), and is not empty. *)
Theorem filteredTokens_are_words (text : jsstring) :
  Forall (fun token => token ≠ [] ∧ Forall (fun c => isWordChar c = true) token)
    (filteredTokens text).
Proof.
  unfold filteredTokens, tokens. apply Forall_forall.
  intros token [Hlen Hin]%list_elem_of_filter. split.
  - intros ->. simpl in Hlen. lia.
  - pose proof (splitTokens_word_pieces text InPiece [] ltac:(constructor)) as Hall.
    rewrite Forall_forall in Hall. by apply Hall.
Qed.

Lemma countRuns_separator (a b : jsstring) (c : N) (inWord : bool) :
  isWordChar c = false ->
  countRuns inWord (a ++ c :: b) = countRuns inWord a + countRuns false b.
Proof.
  intros Hc. revert inWord. induction a as [|x a IH]; intros inWord; simpl.
  - by rewrite Hc.
  - destruct (isWordChar x); rewrite IH; lia.
Qed.

(** X11: a character that is no word character separates tokens and is
    never counted: the count of a text around it is the sum of the counts of
    the two sides. *)
Theorem countTokens_separator (a b : jsstring) (c : N) :
  isWordChar c = false ->
  countTokens (a ++ c :: b) = countTokens a + countTokens b.
Proof. intros Hc. by apply countRuns_separator. Qed.

Lemma countTokens_separator_witness :
  countTokens (js "const x" ++ (61%N :: js "1;"))
  = countTokens (js "const x") + countTokens (js "1;").
Proof. apply countTokens_separator. reflexivity. Defined.

(** ** Running a command *)

Lemma runCommandFrom_data (pre rest : list ChildEvent) (out err : jsstring) :
  Forall isData pre ->
  runCommandFrom (pre ++ rest) out err
  = runCommandFrom rest (out ++ stdoutOf pre) (err ++ stderrOf pre).
Proof.
  intros Hdata. revert out err.
  induction Hdata as [|event pre Hevent _ IH]; intros out err; simpl.
  - by rewrite !app_nil_r.
  - destruct event; try destruct Hevent; simpl; rewrite IH; by rewrite <- app_assoc.
Qed.

(** X12: when the child closes before any error, the promise resolves with
    the chunks of standard output received until then, concatenated in
    order, and likewise for standard error; chunks of one stream never reach
    the other string, and nothing after the close counts. *)
Theorem runCommand_resolves_on_close (pre post : list ChildEvent) :
  Forall isData pre ->
  runCommand (pre ++ CloseEvent :: post)
  = Some (Returns {| output := stdoutOf pre; errorOutput := stderrOf pre |}).
Proof. intros Hdata. unfold runCommand. by rewrite runCommandFrom_data. Qed.

(** X13: when the child emits an error before it closes, the promise
    rejects with that error, whatever was received before and whatever
    follows (a close after the error does not resolve it). *)
Theorem runCommand_rejects_on_error (pre post : list ChildEvent) (error : Exn) :
  Forall isData pre ->
  runCommand (pre ++ ErrorEvent error :: post) = Some (Throws error).
Proof. intros Hdata. unfold runCommand. by rewrite runCommandFrom_data. Qed.

Lemma runCommand_resolves_on_close_witness :
  runCommand ([StdoutData (js "[{"); StderrData (js "warn"); StdoutData (js "}]")]
              ++ CloseEvent :: [StdoutData (js "late")])
  = Some (Returns {| output := js "[{}]"; errorOutput := js "warn" |}).
Proof. apply runCommand_resolves_on_close. repeat constructor. Defined.

Lemma runCommand_rejects_on_error_witness :
  runCommand ([StdoutData (js "partial")] ++ ErrorEvent (IOError "ENOENT") :: [CloseEvent])
  = Some (Throws (IOError "ENOENT")).
Proof. apply runCommand_rejects_on_error. repeat constructor. Defined.

(** ** Lint collector *)

Lemma forEachPush_app {A} (f : A -> list jsstring -> outcome unit * list jsstring)
    (a b : list A) (pushed : list jsstring) :
  forEachPush f (a ++ b) pushed
  = match forEachPush f a pushed with
    | (Returns _, pushed') => forEachPush f b pushed'
    | (Throws e, pushed') => (Throws e, pushed')
    end.
Proof.
  revert pushed. induction a as [|x a IH]; intros pushed; simpl; [done|].
  destruct (f x pushed) as [[u|e] pushed']; [apply IH|done].
Qed.

Section LintProperties.
Context `{NodeRuntime}.

Lemma eslintMessage_messageValue (relativePath : jsstring) (m : LintMessage) (v : JsVal)
    (pushed : list jsstring) :
  messageValue m v ->
  eslintMessage relativePath v pushed = (Returns tt, pushed ++ [formatLint relativePath m]).
Proof.
  intros (props & -> & Hline & Hrule & Htext). unfold eslintMessage, getProp.
  rewrite Hline, Hrule, Htext. unfold formatLint.
  destruct (lm_ruleId m); reflexivity.
Qed.

Lemma forEachPush_messages (relativePath : jsstring) (messages : list LintMessage)
    (values : list JsVal) (pushed : list jsstring) :
  Forall2 messageValue messages values ->
  forEachPush (eslintMessage relativePath) values pushed
  = (Returns tt, pushed ++ (formatLint relativePath <$> messages)).
Proof.
  intros Hall. revert pushed.
  induction Hall as [|m v messages values Hm _ IH]; intros pushed; simpl.
  - by rewrite app_nil_r.
  - rewrite (eslintMessage_messageValue _ m) by done. rewrite IH.
    by rewrite <- app_assoc.
Qed.

Lemma eslintFile_fileValue (f : LintFile) (v : JsVal) (pushed : list jsstring) :
  fileValue f v ->
  eslintFile v pushed
  = (Returns tt,
     pushed ++ (formatLint (path_relative __dirname (lf_path f)) <$> lf_messages f)).
Proof.
  intros (props & values & -> & Hpath & Hmessages & Hall).
  unfold eslintFile, getProp. rewrite Hpath, Hmessages. simpl.
  by apply forEachPush_messages.
Qed.

Lemma forEachPush_files (files : list LintFile) (values : list JsVal)
    (pushed : list jsstring) :
  Forall2 fileValue files values ->
  forEachPush eslintFile values pushed = (Returns tt, pushed ++ lintEntries files).
Proof.
  intros Hall. revert pushed. unfold lintEntries.
  induction Hall as [|f v files values Hf _ IH]; intros pushed; simpl.
  - by rewrite app_nil_r.
  - rewrite (eslintFile_fileValue f) by done. rewrite IH. by rewrite <- app_assoc.
Qed.

(** X14: when the linter output parses to an array of file objects, each
    with a string [filePath] and an array of messages, [parseESLintOutput]
    returns, file by file and message by message, the lines
    "[<relative path>] Line <line>: <message> (<ruleId>)", with "null" for a
    rule that is [null]; it logs nothing and changes no state. *)
Theorem parseESLintOutput_formats_messages (lintOutput : jsstring)
    (files : list LintFile) (values : list JsVal) (w : World) :
  JSON_parse lintOutput = Some (VArr values) ->
  Forall2 fileValue files values ->
  parseESLintOutput lintOutput w = (Returns (lintEntries files), w).
Proof.
  intros Hparse Hall. unfold parseESLintOutput, parseESLintBody.
  rewrite Hparse. simpl. by rewrite (forEachPush_files files).
Qed.

Lemma eslintFile_without_path (v : JsVal) (pushed : list jsstring) :
  (∀ p, getProp v (js "filePath") ≠ Returns (VStr p)) ->
  eslintFile v pushed = (Throws TypeError, pushed).
Proof.
  intros Hno. unfold eslintFile.
  destruct (getProp v (js "filePath")) as [[| | | |p| |]|e] eqn:Hget; try done.
  - by destruct (Hno p).
  - destruct v; simpl in Hget; congruence.
Qed.

(** X15: when an element of the parsed array has no string [filePath]
    (it is [null], a number, an object without that property ...), the
    collector stops there: it logs one [TypeError] and returns the lines of
    the files before that element; the files after it are not reported. *)
Theorem parseESLintOutput_stops_at_malformed_file (lintOutput : jsstring)
    (files : list LintFile) (values rest : list JsVal) (bad : JsVal) (w : World) :
  JSON_parse lintOutput = Some (VArr (values ++ bad :: rest)) ->
  Forall2 fileValue files values ->
  (∀ p, getProp bad (js "filePath") ≠ Returns (VStr p)) ->
  parseESLintOutput lintOutput w
  = (Returns (lintEntries files),
     {| browserOpen := browserOpen w;
        stderr := stderr w ++ [(js "Failed to parse ESLint output:", TypeError)];
        stdout := stdout w; outputFile := outputFile w; clipboard := clipboard w |}).
Proof.
  intros Hparse Hall Hbad. unfold parseESLintOutput, parseESLintBody.
  rewrite Hparse. simpl. rewrite forEachPush_app.
  rewrite (forEachPush_files files) by done. simpl.
  by rewrite eslintFile_without_path.
Qed.

(** X16: [parseESLintOutput] never throws, whatever the linter printed and
    whatever [JSON.parse] makes of it: it returns a list, leaves the session,
    the standard output, the report file and the clipboard as they were, and
    logs at most one failure. *)
Theorem parseESLintOutput_never_throws (lintOutput : jsstring) (w : World) :
  ∃ eslintErrors logged,
    parseESLintOutput lintOutput w
    = (Returns eslintErrors,
       {| browserOpen := browserOpen w; stderr := stderr w ++ logged;
          stdout := stdout w; outputFile := outputFile w; clipboard := clipboard w |})
    ∧ length logged ≤ 1.
Proof.
  unfold parseESLintOutput.
  destruct (parseESLintBody lintOutput) as [[u|e] eslintErrors].
  - exists eslintErrors, []. split; [|simpl; lia].
    unfold ret. rewrite app_nil_r. by destruct w.
  - exists eslintErrors, [(js "Failed to parse ESLint output:", e)]. split; [done|simpl; lia].
Qed.

End LintProperties.

Lemma lintFile_fileValue : fileValue lintFile lintFileValue.
Proof.
  eexists _, _. split_and!; [reflexivity..|].
  repeat constructor; eexists; split_and!; reflexivity.
Qed.

Lemma parseESLintOutput_formats_messages_witness :
  @parseESLintOutput lintRuntime lintText initialWorld
  = (Returns [js "[src/app.js] Line 3: x is unused (no-unused-vars)";
              js "[src/app.js] Line 7: Parsing error (null)"], initialWorld).
Proof.
  apply (@parseESLintOutput_formats_messages lintRuntime lintText [lintFile]
           [lintFileValue] initialWorld).
  - vm_compute. reflexivity.
  - repeat constructor. apply lintFile_fileValue.
Defined.

Lemma parseESLintOutput_stops_at_malformed_file_witness :
  @parseESLintOutput lintRuntime lintTextWithNull initialWorld
  = (Returns [js "[src/app.js] Line 3: x is unused (no-unused-vars)";
              js "[src/app.js] Line 7: Parsing error (null)"],
     {| browserOpen := false;
        stderr := [(js "Failed to parse ESLint output:", TypeError)];
        stdout := []; outputFile := None; clipboard := None |}).
Proof.
  apply (@parseESLintOutput_stops_at_malformed_file lintRuntime lintTextWithNull
           [lintFile] [lintFileValue] [lintFileValue] VNull initialWorld).
  - vm_compute. reflexivity.
  - repeat constructor. apply lintFile_fileValue.
  - intros p. discriminate.
Defined.

(** ** Occurrences, lines and trimming *)

Lemma occursIn_trans (a b c : jsstring) : occursIn a b -> occursIn b c -> occursIn a c.
Proof.
  intros (p1 & q1 & ->) (p2 & q2 & ->). exists (p2 ++ p1), (q1 ++ q2).
  by rewrite <- !app_assoc.
Qed.

Lemma occursIn_join (sep x : jsstring) (a : list jsstring) :
  x ∈ a -> occursIn x (join sep a).
Proof.
  induction a as [|y t IH]; [by intros ?%elem_of_nil|].
  intros [->|Hin]%elem_of_cons.
  - destruct t as [|z t]; simpl.
    + exists [], []. by rewrite app_nil_r.
    + by exists [], (sep ++ join sep (z :: t)).
  - destruct t as [|z t]; [by apply elem_of_nil in Hin|].
    apply (occursIn_trans _ (join sep (z :: t))); [by apply IH|].
    exists (y ++ sep), []. change (join sep (y :: z :: t)) with (y ++ sep ++ join sep (z :: t)).
    by rewrite app_nil_r, <- app_assoc.
Qed.

Lemma occursIn_line (sep : N) (line s : jsstring) :
  line ∈ split sep s -> occursIn line s.
Proof.
  intros Hin. destruct (join_split sep s) as [Hjoin _].
  rewrite <- Hjoin. by apply occursIn_join.
Qed.

Lemma split_first_prefix (sep : N) (m : jsstring) :
  ∀ s, sep ∉ m -> m `prefix_of` s ->
       ∃ seg segs, split sep s = seg :: segs ∧ m `prefix_of` seg.
Proof.
  induction m as [|x m IH]; intros s Hsep Hpre.
  - pose proof (split_not_nil sep s). destruct (split sep s) as [|seg segs]; [done|].
    exists seg, segs. split; [done|apply prefix_nil].
  - apply not_elem_of_cons in Hsep as [Hx Hm].
    destruct Hpre as [k ->]. simpl. rewrite decide_False by congruence.
    destruct (IH (m ++ k) Hm) as (seg & segs & -> & Hseg); [by exists k|].
    exists (x :: seg), segs. split; [done|by apply prefix_cons].
Qed.

(** A string without line break that occurs in a text occurs in one of its
    lines. *)
Lemma occursIn_some_line (sep : N) (m : jsstring) :
  ∀ s, sep ∉ m -> occursIn m s -> ∃ line, line ∈ split sep s ∧ occursIn m line.
Proof.
  intros s Hsep. induction s as [|c t IH]; intros Hocc.
  - exists []. split; [simpl; apply list_elem_of_here|done].
  - apply occursIn_cons in Hocc as [Hpre|Hocc].
    + destruct (split_first_prefix sep m (c :: t) Hsep Hpre) as (seg & segs & Hs & [k ->]).
      exists (m ++ k). split; [rewrite Hs; apply list_elem_of_here|by exists [], k].
    + destruct (IH Hocc) as (line & Hin & Hline). simpl.
      case_decide.
      * exists line. split; [by apply list_elem_of_further|done].
      * destruct (split sep t) as [|seg segs]; [by apply elem_of_nil in Hin|].
        apply elem_of_cons in Hin as [->|Hin].
        -- exists (c :: seg). split; [apply list_elem_of_here|].
           apply occursIn_cons. by right.
        -- exists line. split; [by apply list_elem_of_further|done].
Qed.

Lemma occursIn_skip_blank (m ws r : jsstring) :
  blank ws -> startsClean m -> m ≠ [] -> occursIn m (ws ++ r) -> occursIn m r.
Proof.
  intros Hws Hclean Hne. induction Hws as [|w ws Hw _ IH]; [done|].
  simpl. intros [[k Hpre]|Hocc]%occursIn_cons; [|by apply IH].
  destruct m as [|x m]; [done|]. injection Hpre as -> _.
  simpl in Hclean. congruence.
Qed.

Lemma occursIn_reverse (m s : jsstring) : occursIn m s -> occursIn (reverse m) (reverse s).
Proof.
  intros (pre & post & ->). exists (reverse post), (reverse pre).
  by rewrite !reverse_app, <- app_assoc.
Qed.

(** Trimming loses no occurrence of a string that neither begins nor ends
    with white space. *)
Lemma occursIn_trim (m s : jsstring) :
  m ≠ [] -> startsClean m -> startsClean (reverse m) ->
  occursIn m s -> occursIn m (trim s).
Proof.
  intros Hne Hstart Hend Hocc.
  destruct (trim_trimmedOf s) as (ws1 & ws2 & Heq & Hb1 & Hb2 & _).
  rewrite Heq in Hocc. apply occursIn_skip_blank in Hocc; [|done..].
  apply occursIn_reverse in Hocc. rewrite reverse_app in Hocc.
  apply occursIn_skip_blank in Hocc;
    [|by apply blank_reverse|done|by destruct m using rev_ind;
                                   [|rewrite reverse_snoc]].
  apply occursIn_reverse in Hocc. by rewrite !reverse_involutive in Hocc.
Qed.

(** ** Type-check collector *)

Lemma summarizeTypescriptErrors_elem (tscOutput line : jsstring) :
  line ∈ summarizeTypescriptErrors tscOutput ->
  occursIn (js "error TS") line ∧ line ∈ split LF (trim tscOutput).
Proof.
  unfold summarizeTypescriptErrors. intros [Hinc Hin]%list_elem_of_filter.
  split; [by apply includes_occursIn|done].
Qed.

Lemma occursIn_trimmed (s : jsstring) : occursIn (trim s) s.
Proof.
  destruct (trim_trimmedOf s) as (ws1 & ws2 & Heq & _). by exists ws1, ws2.
Qed.

(** X17: every entry [summarizeTypescriptErrors] returns is a whole line
    of the compiler output (it holds no line break and occurs in the
    output) that contains "error TS". *)
Theorem summarizeTypescriptErrors_entries (tscOutput : jsstring) :
  Forall (fun line => occursIn (js "error TS") line ∧ (LF ∉ line)
                      ∧ occursIn line tscOutput)
    (summarizeTypescriptErrors tscOutput).
Proof.
  apply Forall_forall.
  intros line [Hmark Hin]%summarizeTypescriptErrors_elem. split_and!; [done| |].
  - destruct (join_split LF (trim tscOutput)) as [_ Hall].
    rewrite Forall_forall in Hall. by apply Hall.
  - apply (occursIn_trans _ (trim tscOutput));
      [by apply (occursIn_line LF)|apply occursIn_trimmed].
Qed.

(** X18: the collector returns the empty list exactly when "error TS"
    occurs nowhere in the compiler output, so the TypeScript section shows
    its sentinel exactly for such outputs. *)
Theorem summarizeTypescriptErrors_empty_iff (tscOutput : jsstring) :
  summarizeTypescriptErrors tscOutput = [] ↔ ¬ occursIn (js "error TS") tscOutput.
Proof.
  split.
  - intros Hempty Hocc.
    apply (occursIn_trim (js "error TS")) in Hocc; [|done..].
    apply (occursIn_some_line LF) in Hocc as (line & Hin & Hline);
      [|by apply (bool_decide_unpack _)].
    assert (line ∈ summarizeTypescriptErrors tscOutput) as Hres.
    { unfold summarizeTypescriptErrors. apply list_elem_of_filter.
      split; [by apply includes_occursIn|done]. }
    rewrite Hempty in Hres. by apply elem_of_nil in Hres.
  - intros Hno.
    destruct (summarizeTypescriptErrors tscOutput) as [|line rest] eqn:Hres; [done|].
    exfalso. apply Hno.
    destruct (summarizeTypescriptErrors_elem tscOutput line) as [Hmark Hin];
      [rewrite Hres; apply list_elem_of_here|].
    apply (occursIn_trans _ line); [done|].
    apply (occursIn_trans _ (trim tscOutput));
      [by apply (occursIn_line LF)|apply occursIn_trimmed].
Qed.

(** ** Unique code files *)

Lemma foldl_setAdd_elem (a seen : list jsstring) (x : jsstring) :
  x ∈ foldl setAdd seen a ↔ x ∈ seen ∨ x ∈ a.
Proof.
  revert seen. induction a as [|y t IH]; intros seen; simpl.
  - rewrite elem_of_nil. tauto.
  - rewrite IH, elem_of_cons. unfold setAdd. case_bool_decide as Hy.
    + split; [tauto|]. intros [?|[->|?]]; auto.
    + rewrite elem_of_app, list_elem_of_singleton. tauto.
Qed.

Lemma foldl_setAdd_NoDup (a seen : list jsstring) :
  NoDup seen -> NoDup (foldl setAdd seen a).
Proof.
  revert seen. induction a as [|y t IH]; intros seen Hseen; simpl; [done|].
  apply IH. unfold setAdd. case_bool_decide as Hy; [done|].
  apply NoDup_app. split_and!; [done| |apply NoDup_singleton].
  intros x Hx ->%list_elem_of_singleton. done.
Qed.

Lemma foldl_setAdd_cons (a seen : list jsstring) (x : jsstring) :
  foldl setAdd (x :: seen) a = x :: foldl setAdd seen (filter (fun y => y ≠ x) a).
Proof.
  revert seen. induction a as [|y t IH]; intros seen; [done|].
  rewrite filter_cons. simpl. case_decide as Hyx.
  - simpl. unfold setAdd at 2 4. rewrite (bool_decide_ext (y ∈ x :: seen) (y ∈ seen)).
    + case_bool_decide; apply IH.
    + rewrite elem_of_cons. tauto.
  - subst y. unfold setAdd at 2.
    rewrite bool_decide_eq_true_2 by apply list_elem_of_here. apply IH.
Qed.

(** X19: [[...new Set(codeFiles)]] keeps the first occurrence of every
    block, in the order of the first occurrences: it has no repetition, the
    same elements as the array, and its head is the head of the array
    followed by the unique elements of the rest without that head. *)
Theorem spreadSet_first_occurrences (x : jsstring) (a : list jsstring) :
  NoDup (spreadSet a)
  ∧ (∀ y, y ∈ spreadSet a ↔ y ∈ a)
  ∧ spreadSet (x :: a) = x :: spreadSet (filter (fun y => y ≠ x) a).
Proof.
  unfold spreadSet. split_and!.
  - apply foldl_setAdd_NoDup. constructor.
  - intros y. rewrite foldl_setAdd_elem, elem_of_nil. tauto.
  - simpl. apply foldl_setAdd_cons.
Qed.

Lemma spreadSet_repeated (l1 l2 l3 : list jsstring) (x : jsstring) :
  spreadSet (l1 ++ x :: l2 ++ x :: l3) = spreadSet (l1 ++ x :: l2 ++ l3).
Proof.
  unfold spreadSet. rewrite !foldl_app. simpl. rewrite !foldl_app. simpl.
  set (seen := foldl setAdd (setAdd (foldl setAdd [] l1) x) l2).
  assert (x ∈ seen) as Hseen.
  { apply foldl_setAdd_elem. left. unfold setAdd. case_bool_decide; [done|].
    apply elem_of_app. right. apply list_elem_of_here. }
  unfold setAdd at 2. by rewrite bool_decide_eq_true_2.
Qed.

Section AssemblerEdgeProperties.
Context `{NodeRuntime}.

(** X20: a block that is repeated later in [codeFiles] changes nothing:
    the report is the one of the array without the repetition. *)
Theorem generateOutput_ignores_repeated_block (files : FileSystem)
    (l1 l2 l3 : list jsstring) (block : jsstring)
    (runtimeErrors buildErrors eslintErrors typescriptErrors : list jsstring)
    (summary : jsstring) :
  generateOutput files (l1 ++ block :: l2 ++ block :: l3) runtimeErrors buildErrors
    eslintErrors typescriptErrors summary
  = generateOutput files (l1 ++ block :: l2 ++ l3) runtimeErrors buildErrors
      eslintErrors typescriptErrors summary.
Proof. unfold generateOutput. by rewrite spreadSet_repeated. Qed.

(** X21: when [package.json] parses to an object without a [name]
    property, the report is still produced and its project line reads
    "# Project: undefined". *)
Theorem generateOutput_project_without_name (files : FileSystem)
    (text : jsstring) (props : list (jsstring * JsVal))
    (codeFiles runtimeErrors buildErrors eslintErrors typescriptErrors : list jsstring)
    (summary : jsstring) :
  packageJson files = Some (Returns text) ->
  JSON_parse text = Some (VObj props) ->
  ownProp (js "name") props = None ->
  ∃ back,
    generateOutput files codeFiles runtimeErrors buildErrors eslintErrors
      typescriptErrors summary
    = Returns (overviewText ++ summary ++ js "

# Project: undefined

## Code Files

" ++ back).
Proof.
  intros Hfile Hparse Hname. unfold generateOutput, getProjectName.
  rewrite Hfile. simpl. rewrite Hparse. simpl. rewrite Hname. simpl.
  eexists. reflexivity.
Qed.

(** When [package.json] exists and is no JSON, [generateOutput] throws a
    [SyntaxError], whatever its arguments. *)
Theorem generateOutput_malformed_package (files : FileSystem) (text : jsstring)
    (codeFiles runtimeErrors buildErrors eslintErrors typescriptErrors : list jsstring)
    (summary : jsstring) :
  packageJson files = Some (Returns text) ->
  JSON_parse text = None ->
  generateOutput files codeFiles runtimeErrors buildErrors eslintErrors
    typescriptErrors summary
  = Throws SyntaxError.
Proof.
  intros Hfile Hparse. unfold generateOutput, getProjectName.
  rewrite Hfile. simpl. by rewrite Hparse.
Qed.

End AssemblerEdgeProperties.

Lemma generateOutput_project_without_name_witness :
  ∃ back,
    @generateOutput lintRuntime (demoFilesWithPackage (js "{}")) [] [] [] [] []
      (js "summary")
    = Returns (overviewText ++ js "summary" ++ js "

# Project: undefined

## Code Files

" ++ back).
Proof.
  apply (@generateOutput_project_without_name lintRuntime
           (demoFilesWithPackage (js "{}")) (js "{}") []); reflexivity.
Defined.

Lemma generateOutput_malformed_package_witness :
  @generateOutput demoRuntime (demoFilesWithPackage (js "{ name: demo")) [] [] [] [] []
    (js "summary")
  = Throws SyntaxError.
Proof.
  apply (@generateOutput_malformed_package demoRuntime
           (demoFilesWithPackage (js "{ name: demo")) (js "{ name: demo")); reflexivity.
Defined.

(** ** Runs of the orchestrator *)

Section RunProperties.
Context `{NodeRuntime}.

(** X22: a run that completes has listed and rendered the files, has
    assembled the report from the blocks, the runtime entries, the three
    diagnostic lists and the summary of exactly these, has written that
    report to [output.md] and to the clipboard, and has printed three lines:
    the success message, that summary, and the token count of the report. *)
Theorem main_completed_delivers_report (env : Env) :
  (main env initialWorld).1 = Returns tt ->
  ∃ runtimeErrors summaryRuntimeErrors filePaths codeFiles report,
    capturedErrors env = Returns runtimeErrors
    ∧ mapThrowing summaryRuntimeError runtimeErrors = Returns summaryRuntimeErrors
    ∧ getFilePaths (excludeFiles (fs env)) __dirname (projectTree (fs env)) []
      = Returns filePaths
    ∧ mapThrowing (getFileContentWithStructure (fs env)) filePaths = Returns codeFiles
    ∧ generateOutput (fs env) codeFiles summaryRuntimeErrors (buildErrorsOf env)
        (eslintErrorsOf env) (typescriptErrorsOf env)
        (summaryText filePaths codeFiles summaryRuntimeErrors (buildErrorsOf env)
           (eslintErrorsOf env) (typescriptErrorsOf env))
      = Returns report
    ∧ outputFile (main env initialWorld).2 = Some report
    ∧ clipboard (main env initialWorld).2 = Some report
    ∧ stdout (main env initialWorld).2
      = [ js "Output generated and copied to clipboard successfully!";
          summaryText filePaths codeFiles summaryRuntimeErrors (buildErrorsOf env)
            (eslintErrorsOf env) (typescriptErrorsOf env);
          js "- Token count: " ++ numberToString (countTokens report) ].
Proof.
  unfold buildErrorsOf, eslintErrorsOf, typescriptErrorsOf, main, initialWorld.
  run_step.
  case_unit (launch env); [|discriminate].
  case_unit (newPage env); [|discriminate].
  case_unit (evaluateOnNewDocument env); [|discriminate].
  case_unit (goto env); [|discriminate].
  case_unit (waitForSelector env); [|discriminate].
  case_outcome (capturedErrors env); [|discriminate].
  match goal with |- context [mapThrowing summaryRuntimeError ?l] =>
    case_outcome (mapThrowing summaryRuntimeError l); [|discriminate] end.
  case_outcome (errorOverlay env);
  (case_outcome (eslintRun env);
   [match goal with |- context [parseESLintBody ?o] =>
      destruct (parseESLintBody o) as [[?|?] ?]; run_step end|]);
  case_outcome (tscRun env);
  (case_unit (clearOutput env); [|discriminate]);
  (match goal with |- context [getFilePaths ?r ?d ?t ?a] =>
     case_outcome (getFilePaths r d t a); [|discriminate] end);
  (match goal with |- context [mapThrowing (getFileContentWithStructure ?f) ?l] =>
     case_outcome (mapThrowing (getFileContentWithStructure f) l); [|discriminate] end);
  (match goal with |- context [generateOutput ?f ?c ?r ?b ?l ?t ?s] =>
     case_outcome (generateOutput f c r b l t s); [|discriminate] end);
  (case_unit (writeOutput env); [|discriminate]);
  (case_unit (clipboardWrite env); [|discriminate]);
  (case_unit (browserClose env); [|discriminate]);
  intros _; eexists _, _, _, _, _;
  (split_and!; [reflexivity|eassumption|reflexivity|eassumption|eassumption
               |reflexivity|reflexivity|reflexivity]).
Qed.

(** X23: when every step outside the three [try] blocks answers, the run
    completes and closes the session whatever the build-error capture, the
    linter and the type checker do, and it logs at most three failures. *)
Theorem main_survives_guarded_failures (env : Env) :
  unguardedStepsSucceed env ->
  (main env initialWorld).1 = Returns tt
  ∧ browserOpen (main env initialWorld).2 = false
  ∧ length (stderr (main env initialWorld).2) ≤ 3.
Proof.
  intros (Hlaunch & Hpage & Hinject & Hgoto & Hwait & [runtimeErrors Hcaptured]
          & Hclear & (filePaths & codeFiles & Hpaths & Hblocks)
          & [projectName Hname] & Hwrite & Hclip & Hclose).
  destruct (mapThrowing_returns summaryRuntimeError runtimeErrors
              summaryRuntimeError_returns) as [summaryRuntimeErrors Hsummary].
  unfold main, initialWorld. run_step.
  rewrite Hlaunch, Hpage, Hinject, Hgoto, Hwait, Hcaptured. run_step.
  rewrite Hsummary. run_step.
  case_outcome (errorOverlay env);
  (case_outcome (eslintRun env);
   [match goal with |- context [parseESLintBody ?o] =>
      destruct (parseESLintBody o) as [[?|?] ?]; run_step end|]);
  case_outcome (tscRun env);
  (rewrite Hclear, Hpaths; run_step; rewrite Hblocks; run_step);
  (match goal with |- context [generateOutput ?f ?c ?r ?b ?l ?t ?s] =>
     destruct (generateOutput_layout f c r b l t s projectName Hname) as [front ->] end);
  run_step; rewrite Hwrite, Hclip, Hclose; run_step;
  (split_and!; [reflexivity|reflexivity|simpl; lia]).
Qed.

(** X24: [output.md] is emptied before the files are listed, so a run
    whose earlier steps answer and in which listing the files, reading one of
    them or reading the project name throws ends with that exception, with
    [output.md] empty, nothing on the clipboard and the session still open. *)
Theorem main_failure_leaves_empty_report (env : Env) (e : Exn) :
  stepsBeforeListingSucceed env ->
  reportInputsThrow env e ->
  (main env initialWorld).1 = Throws e
  ∧ outputFile (main env initialWorld).2 = Some []
  ∧ clipboard (main env initialWorld).2 = None
  ∧ browserOpen (main env initialWorld).2 = true.
Proof.
  intros (Hlaunch & Hpage & Hinject & Hgoto & Hwait & [runtimeErrors Hcaptured] & Hclear)
         Hthrow.
  destruct (mapThrowing_returns summaryRuntimeError runtimeErrors
              summaryRuntimeError_returns) as [summaryRuntimeErrors Hsummary].
  unfold main, initialWorld. run_step.
  rewrite Hlaunch, Hpage, Hinject, Hgoto, Hwait, Hcaptured. run_step.
  rewrite Hsummary. run_step.
  case_outcome (errorOverlay env);
  (case_outcome (eslintRun env);
   [match goal with |- context [parseESLintBody ?o] =>
      destruct (parseESLintBody o) as [[?|?] ?]; run_step end|]);
  case_outcome (tscRun env);
  (rewrite Hclear; run_step);
  (destruct Hthrow as [Hlist|(filePaths & Hlist & [Hread|(codeFiles & Hread & Hname)])];
   rewrite Hlist; run_step; [by split_and!|..];
   rewrite Hread; run_step; [by split_and!|];
   rewrite (generateOutput_throws _ _ _ _ _ _ _ _ _ Hname); run_step; by split_and!).
Qed.

End RunProperties.

(** The model project with every guarded step failing: the three lists
    are empty and the summary counts three files and eight lines. *)
Lemma main_completed_delivers_report_witness :
  ∃ report,
    @generateOutput demoRuntime demoFiles
      [fileBlock (js "a.js") (js "const x=1;"); [];
       fileBlock (js "src/app.js") (js "let y;")] [] [] [] []
      (@summaryText
         [js "/proj/a.js"; js "/proj/blank.js"; js "/proj/src/app.js"]
         [fileBlock (js "a.js") (js "const x=1;"); [];
          fileBlock (js "src/app.js") (js "let y;")] [] [] [] [])
    = Returns report
    ∧ outputFile (@main demoRuntime (demoEnvWithPackage demoPackageText) initialWorld).2
      = Some report
    ∧ clipboard (@main demoRuntime (demoEnvWithPackage demoPackageText) initialWorld).2
      = Some report
    ∧ stdout (@main demoRuntime (demoEnvWithPackage demoPackageText) initialWorld).2
      = [ js "Output generated and copied to clipboard successfully!";
          js "- Total files: 3
- Lines of code: 7
- Runtime errors: 0
- Build errors: 0
- ESLint errors: 0
- TypeScript errors: 0";
          js "- Token count: " ++ numberToString (countTokens report) ].
Proof.
  destruct (@main_completed_delivers_report demoRuntime
              (demoEnvWithPackage demoPackageText))
    as (runtimeErrors & summaryRuntimeErrors & filePaths & codeFiles & report
        & Hcaptured & Hsummary & Hpaths & Hblocks & Hreport & Hfile & Hclip & Hout).
  - vm_compute. reflexivity.
  - injection Hcaptured as <-. injection Hsummary as <-.
    assert (filePaths = [js "/proj/a.js"; js "/proj/blank.js"; js "/proj/src/app.js"])
      as -> by (vm_compute in Hpaths; by injection Hpaths).
    assert (codeFiles = [fileBlock (js "a.js") (js "const x=1;"); [];
                         fileBlock (js "src/app.js") (js "let y;")])
      as -> by (vm_compute in Hblocks; vm_compute; by injection Hblocks).
    exists report. split_and!; [exact Hreport|exact Hfile|exact Hclip|exact Hout].
Defined.

Lemma main_survives_guarded_failures_witness :
  (@main demoRuntime (demoEnvWithPackage demoPackageText) initialWorld).1 = Returns tt
  ∧ browserOpen (@main demoRuntime (demoEnvWithPackage demoPackageText) initialWorld).2
    = false
  ∧ length (stderr (@main demoRuntime (demoEnvWithPackage demoPackageText)
                      initialWorld).2) ≤ 3.
Proof.
  apply (@main_survives_guarded_failures demoRuntime).
  unfold unguardedStepsSucceed. split_and!; try reflexivity.
  - eexists. reflexivity.
  - eexists _, _. split; vm_compute; reflexivity.
  - eexists. vm_compute. reflexivity.
Defined.

(** The model project with a [package.json] that is no JSON. *)
Lemma main_failure_leaves_empty_report_witness :
  (@main demoRuntime (demoEnvWithPackage (js "{ name: demo")) initialWorld).1
  = Throws SyntaxError
  ∧ outputFile (@main demoRuntime (demoEnvWithPackage (js "{ name: demo"))
                  initialWorld).2 = Some []
  ∧ clipboard (@main demoRuntime (demoEnvWithPackage (js "{ name: demo"))
                 initialWorld).2 = None
  ∧ browserOpen (@main demoRuntime (demoEnvWithPackage (js "{ name: demo"))
                   initialWorld).2 = true.
Proof.
  apply (@main_failure_leaves_empty_report demoRuntime).
  - unfold stepsBeforeListingSucceed. split_and!; try reflexivity. eexists. reflexivity.
  - right. eexists. split; [vm_compute; reflexivity|]. right. eexists.
    split; vm_compute; reflexivity.
Defined.

(** ** Runtime-error entries, line counts and blocks *)

Lemma find_first {A} (p : A -> bool) (before after : list A) (x : A) :
  (∀ y, y ∈ before -> p y = false) -> p x = true ->
  find p (before ++ x :: after) = Some x.
Proof.
  intros Hbefore Hx. induction before as [|y before IH]; simpl.
  - by rewrite Hx.
  - rewrite (Hbefore y) by apply list_elem_of_here.
    apply IH. intros z Hz. apply Hbefore. by apply list_elem_of_further.
Qed.

(** X25: for a runtime error with a stack, the second line of the entry is
    the first line after the headline that contains "at ", as it stands
    (not trimmed); lines before it that hold no "at " are skipped, and the
    headline itself is never taken as the location. *)
Theorem summaryRuntimeError_first_frame
    (error line0 frame : jsstring) (before after : list jsstring) :
  error = join nl (line0 :: before ++ frame :: after) ->
  Forall (fun line => LF ∉ line) (line0 :: before ++ frame :: after) ->
  (∀ line, line ∈ before -> ¬ occursIn (js "at ") line) ->
  occursIn (js "at ") frame ->
  summaryRuntimeError error
  = Returns (js "- " ++ trim line0 ++ nl ++ js "  " ++ frame).
Proof.
  intros -> Hlines Hbefore Hframe.
  assert (split LF (join nl (line0 :: before ++ frame :: after))
          = line0 :: before ++ frame :: after) as Hsplit
    by (by apply (split_join LF)).
  unfold summaryRuntimeError. cbv zeta. rewrite Hsplit.
  change ((line0 :: before ++ frame :: after) !! 0) with (Some line0).
  change (sliceFrom 1 (line0 :: before ++ frame :: after)) with (before ++ frame :: after).
  cbv beta iota. rewrite (find_first _ before after frame); [done| |].
  - intros line Hin. destruct (includes line (js "at ")) eqn:Hinc; [|done].
    apply includes_occursIn in Hinc. by apply Hbefore in Hinc.
  - by apply includes_occursIn.
Qed.

Lemma summaryRuntimeError_first_frame_witness :
  summaryRuntimeError
    (js "  TypeError: at least one " ++ nl ++ js "caused by x" ++ nl
     ++ js "    at App (App.js:3)" ++ nl ++ js "    at main (index.js:1)")
  = Returns (js "- TypeError: at least one" ++ nl ++ js "      at App (App.js:3)").
Proof.
  apply (summaryRuntimeError_first_frame _ (js "  TypeError: at least one ")
           (js "    at App (App.js:3)") [js "caused by x"]
           [js "    at main (index.js:1)"]).
  - reflexivity.
  - apply (bool_decide_unpack _). by vm_compute.
  - intros line ->%list_elem_of_singleton Hocc%includes_occursIn.
    vm_compute in Hocc. discriminate.
  - apply includes_occursIn. vm_compute. reflexivity.
Defined.

Lemma split_length (sep : N) (s : jsstring) :
  length (split sep s) = S (length (filter (fun c => c = sep) s)).
Proof.
  induction s as [|c t IH]; [done|]. simpl. rewrite filter_cons.
  pose proof (split_not_nil sep t) as Hne.
  case_decide; simpl; [by rewrite IH|].
  destruct (split sep t) as [|seg segs]; [done|]. simpl in *. lia.
Qed.

Lemma join_empty_concat (a : list jsstring) : join [] a = concat a.
Proof.
  induction a as [|x t IH]; [done|]. destruct t as [|y t].
  - simpl. by rewrite app_nil_r.
  - change (join [] (x :: y :: t)) with (x ++ [] ++ join [] (y :: t)).
    rewrite IH. reflexivity.
Qed.

(** X26: the summary prints, after "- Lines of code: ", one more than
    the number of line breaks in all the blocks together (so 1 for a project
    without files, and the header and the sentinel line of every block are
    counted); the other five figures are the lengths of the arrays. *)
Theorem lines_of_code_counts_line_breaks
    (filePaths codeFiles summaryRuntimeErrors buildErrors eslintErrors
       typescriptErrors : list jsstring) :
  summaryText filePaths codeFiles summaryRuntimeErrors buildErrors eslintErrors
    typescriptErrors
  = js "- Total files: " ++ numberToString (length filePaths) ++ js "
- Lines of code: "
    ++ numberToString (S (length (filter (fun c => c = LF) (concat codeFiles)))) ++ js "
- Runtime errors: " ++ numberToString (length summaryRuntimeErrors) ++ js "
- Build errors: " ++ numberToString (length buildErrors) ++ js "
- ESLint errors: " ++ numberToString (length eslintErrors) ++ js "
- TypeScript errors: " ++ numberToString (length typescriptErrors).
Proof. unfold summaryText. by rewrite join_empty_concat, split_length. Qed.

Lemma mapThrowing_elem {A B} (f : A -> outcome B) (a : list A) (b : list B) (x : A) :
  mapThrowing f a = Returns b -> x ∈ a -> ∃ y, f x = Returns y ∧ y ∈ b.
Proof.
  revert b. induction a as [|z t IH]; intros b Hb Hx; [by apply elem_of_nil in Hx|].
  simpl in Hb. destruct (f z) as [y|e] eqn:Hz; [|discriminate]. simpl in Hb.
  destruct (mapThrowing f t) as [ys|e]; [|discriminate]. simpl in Hb.
  injection Hb as <-. apply elem_of_cons in Hx as [->|Hx].
  - exists y. split; [done|apply list_elem_of_here].
  - destruct (IH ys eq_refl Hx) as (y' & Hy' & Hin).
    exists y'. split; [done|by apply list_elem_of_further].
Qed.

Section BlockListProperties.
Context `{NodeRuntime}.

(** X27: [filePaths.map(getFileContentWithStructure)] drops nothing: the
    array of blocks has one element per path, and for every listed file that
    holds white space only it holds the empty string. *)
Theorem codeFiles_keep_empty_blocks (files : FileSystem)
    (filePaths codeFiles : list jsstring) (filePath raw : jsstring) :
  mapThrowing (getFileContentWithStructure files) filePaths = Returns codeFiles ->
  filePath ∈ filePaths ->
  readFile files filePath = Returns raw ->
  blank raw ->
  length codeFiles = length filePaths ∧ [] ∈ codeFiles.
Proof.
  intros Hmap Hin Hread Hblank. split; [by apply (mapThrowing_length _ _ _ Hmap)|].
  destruct (mapThrowing_elem _ _ _ _ Hmap Hin) as (block & Hblock & Hmem).
  unfold getFileContentWithStructure in Hblock.
  case_bool_decide; [by injection Hblock as <-|].
  rewrite Hread in Hblock. simpl in Hblock.
  apply trim_blank in Hblank. rewrite Hblank in Hblock. by injection Hblock as <-.
Qed.

End BlockListProperties.

Lemma codeFiles_keep_empty_blocks_witness :
  length [fileBlock (js "a.js") (js "const x=1;"); [];
          fileBlock (js "src/app.js") (js "let y;")]
  = length [js "/proj/a.js"; js "/proj/blank.js"; js "/proj/src/app.js"]
  ∧ [] ∈ [fileBlock (js "a.js") (js "const x=1;"); [];
          fileBlock (js "src/app.js") (js "let y;")].
Proof.
  apply (@codeFiles_keep_empty_blocks demoRuntime demoFiles
           [js "/proj/a.js"; js "/proj/blank.js"; js "/proj/src/app.js"] _
           (js "/proj/blank.js") (js "  " ++ nl ++ js " ")).
  - vm_compute. reflexivity.
  - apply list_elem_of_further, list_elem_of_here.
  - vm_compute. reflexivity.
  - by repeat constructor.
Defined.
